(** * Rocking stand: fixed-point sine and servo control loop

    A shallow embedding of [stand.c] (the AVR firmware) and of
    [experiments/sin11.c] (the host-side experiment that compares the
    multiply-based and the bit-only square approximations), with the
    properties of the sine approximation, of the pulse-width computation and
    of the phase accumulator.

    C integers are modelled as [Z] with every conversion written out.  The
    conversions to a narrower signed type and the right shift of a negative
    value are implementation-defined in C; they are modelled as gcc defines
    them (reduction modulo [2^w], arithmetic shift). *)

From Stdlib Require Import ZArith List Lia Bool.
From Stdlib Require String Ascii DecimalString.
Import ListNotations.
Local Open Scope Z_scope.

(** ** C integer types *)

Module CInt.

(** Conversion to an unsigned type of [w] bits. *)
Definition to_unsigned (w z : Z) : Z := z mod 2 ^ w.

(** Conversion to a signed type of [w] bits (two's complement). *)
Definition to_signed (w z : Z) : Z :=
  (z + 2 ^ (w - 1)) mod 2 ^ w - 2 ^ (w - 1).

Definition u8 : Z -> Z := to_unsigned 8.
Definition s8 : Z -> Z := to_signed 8.
Definition u16 : Z -> Z := to_unsigned 16.
Definition s16 : Z -> Z := to_signed 16.

(** Value ranges of the types. *)
Definition is_u8 (z : Z) : Prop := 0 <= z <= 255.
Definition is_s8 (z : Z) : Prop := -128 <= z <= 127.
Definition is_u16 (z : Z) : Prop := 0 <= z <= 65535.
Definition is_s16 (z : Z) : Prop := -32768 <= z <= 32767.

(** A C condition: nonzero is true. *)
Definition truthy (z : Z) : bool := negb (z =? 0).

(** [[lo, lo+1, ..., lo+n-1]], used to enumerate a whole type. *)
Fixpoint zrange (lo : Z) (n : nat) : list Z :=
  match n with
  | O => []
  | S n' => lo :: zrange (lo + 1) n'
  end.

Definition all_u8 : list Z := zrange 0 256.
Definition all_s8 : list Z := zrange (-128) 256.

End CInt.

Import CInt.

(** ** experiments/sin11.c

    A host program: [int] has 32 bits there.  No [int] computation of the
    file leaves the 16-bit range, so the width plays no role. *)

Module Sin11.

Definition int_bits : Z := 32.
Definition int : Z -> Z := to_signed int_bits.

(** One turn of the [do ... while (--count)] loop of [sq8_bit], on the
    variables [x], [out] and [cf]; [w] is not written in the loop. *)
Definition sq8_bit_body (w : Z) (st : Z * Z * Z) : Z * Z * Z :=
  let '(x, out, cf) := st in
  let out := u8 (int (Z.shiftl cf 7 + Z.shiftr out 1)) in
  let '(out, cf) :=
    if truthy (Z.land x 1)
    then let out := u8 (int (out + w)) in
         (out, if out <? w then 1 else 0)
    else (out, cf) in
  let x := u8 (Z.shiftr x 1) in
  (x, out, cf).

(** [count] turns of the loop; [count] starts at 8 and the loop ends when
    the decrement reaches zero. *)
Fixpoint sq8_bit_loop (count : nat) (w : Z) (st : Z * Z * Z) : Z * Z * Z :=
  match count with
  | O => st
  | S count' => sq8_bit_loop count' w (sq8_bit_body w st)
  end.

(** [uint8_t sq8_bit(uint8_t x)] *)
Definition sq8_bit (x : Z) : Z :=
  let w := u8 (Z.lnot x) in
  let '(_, out, _) := sq8_bit_loop 8 w (x, 0, 0) in
  u8 (int (out + 128)).

(** [uint8_t sq8_imul(signed char x)] *)
Definition sq8_imul (x : Z) : Z :=
  let x := s8 (int (x + 128)) in
  let x := s8 (Z.shiftr (int (s16 x * x)) 7) in
  u8 (Z.lnot x).

(** The two sines are written against the macro [sq8]; the file binds it
    with [#define sq8 sq8_imul].  The macro is a parameter here: it takes
    the [int] argument of the call and converts it to the parameter type
    of the function it names. *)
Section Backend.

Variable sq8 : Z -> Z.

(** [uint8_t sinu8(uint8_t angle)] *)
Definition sinu8_with (angle : Z) : Z :=
  if truthy (Z.land angle 128)
  then u8 (Z.lnot (sq8 (int (Z.shiftl angle 1))))
  else sq8 (int (Z.shiftl angle 1)).

(** [int8_t sin8(uint8_t angle)] *)
Definition sin8_with (angle : Z) : Z :=
  let ret := sq8 (int (Z.shiftl angle 1)) in
  let ret := if truthy (Z.land angle 128) then u8 (Z.lnot ret) else ret in
  s8 (int (ret + 128)).

End Backend.

(** [#define sq8 sq8_imul], called with an [int] argument. *)
Definition sq8 (a : Z) : Z := sq8_imul (s8 a).

(** The other binding of the macro: [sq8_bit], whose parameter is a
    [uint8_t]. *)
Definition sq8_bitonly (a : Z) : Z := sq8_bit (u8 a).

Definition sinu8 : Z -> Z := sinu8_with sq8.
Definition sin8 : Z -> Z := sin8_with sq8.

(** The sine obtained when the macro names the bit-only square. *)
Definition sin8_bit : Z -> Z := sin8_with sq8_bitonly.

End Sin11.

(** ** stand.c

    The AVR firmware: [int] has 16 bits, [uint16_t] is [unsigned int]. *)

Module Stand.

Definition int_bits : Z := 16.
Definition int : Z -> Z := to_signed int_bits.

(** [uint8_t sq8(int8_t x)] *)
Definition sq8 (x : Z) : Z :=
  let x := s8 (int (x + 128)) in
  let x := s8 (Z.shiftr (int (s16 x * x)) 7) in
  u8 (Z.lnot x).

(** [int8_t sin8(uint8_t angle)] *)
Definition sin8 (angle : Z) : Z :=
  let ret := sq8 (s8 (int (Z.shiftl angle 1))) in
  let ret := if truthy (Z.land angle 128) then u8 (Z.lnot ret) else ret in
  s8 (int (ret + 128)).

(** *** The microcontroller

    The device header [avr/io.h] is not part of the repository.  The bit
    numbers below are those of the ATtiny13 and ATtiny25/45/85 data
    sheets, the two targets the file names. *)

Definition MUX0 : Z := 0.
Definition MUX1 : Z := 1.
Definition ADLAR : Z := 5.
Definition ADPS0 : Z := 0.
Definition ADPS1 : Z := 1.
Definition ADSC : Z := 6.
Definition ADEN : Z := 7.
Definition PB0 : Z := 0.
Definition DDB0 : Z := 0.

Definition _BV (bit : Z) : Z := Z.shiftl 1 bit.

(** The I/O registers the program touches.  [ADCW] is the 10-bit result
    of the last conversion; [ADCH] and [ADCL] are views of it that depend
    on the [ADLAR] bit. *)
Record regs : Type := mkRegs {
  DDRB : Z;
  PORTB : Z;
  ADMUX : Z;
  ADCSRA : Z;
  ADCW : Z
}.

(** The whole machine: the one global variable of the program, the
    registers, and the pulses seen so far on the port pins, newest first,
    each as (port bit, width in microseconds). *)
Record machine : Type := mkMachine {
  angle : Z;
  io : regs;
  pulses : list (Z * Z)
}.

Definition set_DDRB (v : Z) (r : regs) : regs :=
  mkRegs (u8 v) (PORTB r) (ADMUX r) (ADCSRA r) (ADCW r).
Definition set_PORTB (v : Z) (r : regs) : regs :=
  mkRegs (DDRB r) (u8 v) (ADMUX r) (ADCSRA r) (ADCW r).
Definition set_ADMUX (v : Z) (r : regs) : regs :=
  mkRegs (DDRB r) (PORTB r) (u8 v) (ADCSRA r) (ADCW r).
Definition set_ADCSRA (v : Z) (r : regs) : regs :=
  mkRegs (DDRB r) (PORTB r) (ADMUX r) (u8 v) (ADCW r).
Definition set_ADCW (v : Z) (r : regs) : regs :=
  mkRegs (DDRB r) (PORTB r) (ADMUX r) (ADCSRA r) v.

Definition ADCH (r : regs) : Z :=
  if Z.testbit (ADMUX r) ADLAR
  then Z.shiftr (ADCW r) 2
  else Z.shiftr (ADCW r) 8.

Definition ADCL (r : regs) : Z :=
  if Z.testbit (ADMUX r) ADLAR
  then u8 (Z.shiftl (ADCW r) 6)
  else u8 (ADCW r).

(** Code that runs on the machine. *)
Definition M (A : Type) : Type := machine -> A * machine.

Definition ret {A : Type} (a : A) : M A := fun m => (a, m).

Definition bind {A B : Type} (c : M A) (k : A -> M B) : M B :=
  fun m => let '(a, m') := c m in k a m'.

Declare Scope avr_scope.
Delimit Scope avr_scope with avr.
Notation "x <- c ;; k" := (bind c (fun x => k))
  (at level 61, c at next level, right associativity) : avr_scope.
Notation "c ;; k" := (bind c (fun _ => k))
  (at level 61, right associativity) : avr_scope.

Definition get_io {A : Type} (f : regs -> A) : M A :=
  fun m => (f (io m), m).

Definition put_io (f : regs -> regs) : M unit :=
  fun m => (tt, mkMachine (angle m) (f (io m)) (pulses m)).

Definition get_angle : M Z := fun m => (angle m, m).

Definition put_angle (a : Z) : M unit :=
  fun m => (tt, mkMachine a (io m) (pulses m)).

Definition log_pulse (port width : Z) : M unit :=
  fun m => (tt, mkMachine (angle m) (io m) ((port, width) :: pulses m)).

(** The value assigned to [pw] in [loop], as a function of the variables
    the expression reads.  All the arithmetic is done in [int]; the
    assignment converts to [uint16_t]. *)
Definition pulse_width (angle p1 p3 : Z) : Z :=
  u16 (int (int (1500
                 + int (Z.shiftl (s16 (u16 (p1 - 512))) 1))
            + Z.shiftr (int (s16 (sin8 (u8 (Z.shiftr angle 8))) * p3)) 6)).

Local Open Scope avr_scope.

Section World.

(** What a conversion of each ADC input yields in the current cycle: the
    positions of the potentiometers, as 10-bit values. *)
Variable pots : Z -> Z.

(** The converter: a conversion in progress ([ADSC] set) finishes by
    latching the selected input and clearing [ADSC]. *)
Definition adc_finish (r : regs) : regs :=
  if Z.testbit (ADCSRA r) ADSC
  then set_ADCW (pots (Z.land (ADMUX r) 3) mod 1024)
         (set_ADCSRA (Z.land (ADCSRA r) (Z.lnot (_BV ADSC))) r)
  else r.

(** [static inline void delay_us(uint16_t us)]: [us2loops] turns the
    duration into a count and a busy loop counts it down to zero.  The loop
    always ends; it only takes time, which the machine does not record. *)
Definition delay_us (us : Z) : M unit := ret tt.

(** [static inline void send_pulse(uint8_t port, uint16_t width)]: the
    pin goes up, stays up for the counted busy loop, and goes down.  The
    pulse is recorded with the width the caller asked for. *)
Definition send_pulse (port width : Z) : M unit :=
  put_io (fun r => set_PORTB (Z.lor (PORTB r) (_BV port)) r) ;;
  log_pulse port width ;;
  put_io (fun r => set_PORTB (Z.land (PORTB r) (Z.lnot (_BV port))) r).

(** [static inline void set_adc_channel(const uint8_t ch)] *)
Definition set_adc_channel (ch : Z) : M unit :=
  let clear r := Z.land (ADMUX r) (Z.lnot (Z.lor (_BV MUX1) (_BV MUX0))) in
  match ch with
  | 0 => put_io (fun r => set_ADMUX (Z.lor (clear r) (Z.lor 0 0)) r)
  | 1 => put_io (fun r => set_ADMUX (Z.lor (clear r) (Z.lor 0 (_BV MUX0))) r)
  | 2 => put_io (fun r => set_ADMUX (Z.lor (clear r) (Z.lor (_BV MUX1) 0)) r)
  | 3 => put_io (fun r => set_ADMUX (Z.lor (clear r) (Z.lor (_BV MUX1) (_BV MUX0))) r)
  | _ => ret tt
  end.

(** [static inline void start_adc(void)] *)
Definition start_adc : M unit :=
  put_io (fun r => set_ADCSRA (Z.lor (ADCSRA r) (_BV ADSC)) r).

(** [while (ADCSRA & _BV(ADSC));] the wait ends when the converter
    clears the bit. *)
Definition wait_adc : M unit := put_io adc_finish.

(** [static inline uint8_t read_adch(void)] *)
Definition read_adch : M Z :=
  wait_adc ;;
  put_io (fun r => set_ADMUX (Z.lor (ADMUX r) (_BV ADLAR)) r) ;;
  get_io ADCH.

(** [static inline uint16_t read_adc(void)] *)
Definition read_adc : M Z :=
  wait_adc ;;
  put_io (fun r => set_ADMUX (Z.land (ADMUX r) (Z.lnot (_BV ADLAR))) r) ;;
  get_io (fun r => u16 (ADCL r + u16 (Z.shiftl (u16 (ADCH r)) 8))).

(** [void loop(void)] *)
Definition loop : M unit :=
  let p1 := 0 in let p2 := 0 in let p3 := 0 in
  set_adc_channel 1 ;;
  start_adc ;;
  delay_us 6000 ;;
  p1 <- read_adc ;;
  set_adc_channel 2 ;;
  start_adc ;;
  delay_us 6000 ;;
  p2 <- read_adc ;;
  set_adc_channel 3 ;;
  start_adc ;;
  delay_us 6000 ;;
  p3 <- read_adch ;;
  a <- get_angle ;;
  let pw := pulse_width a p1 p3 in
  a <- get_angle ;;
  put_angle (u16 (a + u16 (Z.shiftl (u16 p2) 2))) ;;
  send_pulse PB0 pw.

End World.

(** [void setup(void)] *)
Definition setup : M unit :=
  put_io (set_DDRB (_BV DDB0)) ;;
  put_io (set_ADCSRA (Z.lor (_BV ADEN) (Z.lor (_BV ADPS1) (_BV ADPS0)))) ;;
  put_io (set_ADMUX 0).

(** The machine when [main] starts: [angle] holds its initialiser, the
    registers hold whatever the reset left in them. *)
Definition power_on (r : regs) : machine := mkMachine 0 r [].

(** The first [n] turns of [while (1) loop();].  [world i] is what the
    potentiometers give during turn [i]. *)
Fixpoint run (world : nat -> Z -> Z) (n : nat) (m : machine) : machine :=
  match n with
  | O => m
  | S n' => snd (loop (world n') (run world n' m))
  end.

(** [int main(void)] without [TEST], cut after [n] turns. *)
Definition main (world : nat -> Z -> Z) (n : nat) (r : regs) : machine :=
  run world n (snd (setup (power_on r))).

(** The three samples [loop] takes from the potentiometers. *)
Definition offset_sample (pots : Z -> Z) : Z := pots 1 mod 1024.
Definition speed_sample (pots : Z -> Z) : Z := pots 2 mod 1024.
Definition amplitude_sample (pots : Z -> Z) : Z :=
  Z.shiftr (pots 3 mod 1024) 2.

End Stand.

(** ** The specification's descriptions, for comparison with the code *)

Module Spec.

(** The helper [square_approx] in the specification's words: add 128 to
    get an unsigned 8-bit value, square it with a widening multiply to 16
    bits, shift right by 7, complement the low 8 bits. *)
Definition square_approx (x : Z) : Z :=
  let u := u8 (x + 128) in
  u8 (Z.lnot (Z.shiftr (u16 (u * u)) 7)).

(** The pulse-width formula over the integers, with no conversion. *)
Definition pulse_width_exact (angle p1 p3 : Z) : Z :=
  1500 + Z.shiftl (p1 - 512) 1
  + Z.shiftr (Stand.sin8 (Z.shiftr angle 8) * p3) 6.

(** [x + 128] read as a signed byte: [x + 128] for a negative [x],
    [x - 128] otherwise. *)
Definition centered (x : Z) : Z := if x <? 0 then x + 128 else x - 128.

End Spec.

(** ** The effect of the code on the registers, in closed form *)

Module Effects.

Section World.

Variable pots : Z -> Z.

(** The registers after one input has been selected, converted and
    read, with the result left- or right-aligned. *)
Definition adc_regs (ch : Z) (left_aligned : bool) (r : Stand.regs)
  : Stand.regs :=
  let admux := u8 (Z.lor (Z.land (Stand.ADMUX r) (Z.lnot 3)) ch) in
  let adcsra := u8 (Z.land (u8 (Z.lor (Stand.ADCSRA r) 64)) (Z.lnot 64)) in
  Stand.mkRegs (Stand.DDRB r) (Stand.PORTB r)
    (u8 (if left_aligned
         then Z.lor admux 32
         else Z.land admux (Z.lnot 32)))
    adcsra
    (pots ch mod 1024).

(** The registers after a pulse on [PB0]. *)
Definition pulse_regs (r : Stand.regs) : Stand.regs :=
  Stand.set_PORTB
    (Z.land (u8 (Z.lor (Stand.PORTB r) 1)) (Z.lnot 1)) r.

(** The registers after one turn of [loop]. *)
Definition loop_regs (r : Stand.regs) : Stand.regs :=
  pulse_regs (adc_regs 3 true (adc_regs 2 false (adc_regs 1 false r))).

End World.

(** Potentiometers at fixed positions: offset, speed, amplitude. *)
Definition fixed_pots (p1 p2 p3 : Z) (ch : Z) : Z :=
  if ch =? 1 then p1 else if ch =? 2 then p2 else p3.

Definition zero_regs : Stand.regs := Stand.mkRegs 0 0 0 0 0.

End Effects.

Import Effects.

(** ** stand.c: the busy loops, with the time they take

    The machine above has no clock.  Here every turn of a busy loop is
    counted, so that [us2loops], [delay_us], [send_pulse], the timing of
    [loop] and the [TEST] branch of [main] can be stated.  [F_CPU] is the
    macro the build must define. *)

Module Timed.

Definition u32 : Z -> Z := to_unsigned 32.

(** [while (--us) asm volatile("");] on a [uint16_t]: decrement, leave when
    the result is zero, otherwise run the empty body.  The result is the
    number of times the body ran; [None] when [fuel] tests were not enough. *)
Fixpoint busy_wait (fuel : nat) (us turns : Z) : option Z :=
  match fuel with
  | O => None
  | S fuel' =>
      let us := u16 (us - 1) in
      if truthy us then busy_wait fuel' us (turns + 1) else Some turns
  end.

(** More tests than a 16-bit counter has values. *)
Definition enough_fuel : nat := Z.to_nat 65536.

(** How often the body of a busy loop runs when the counter starts at
    [count]: one less than the counter, and 65535 when it starts at 0. *)
Definition spin_turns (count : Z) : Z :=
  if count =? 0 then 65535 else count - 1.

(** The machine with a count of the busy-loop turns spent so far. *)
Record clocked : Type := mkClocked {
  spins : Z;
  mach : Stand.machine
}.

(** Code that may spin: it ends in a new state, or does not end within the
    fuel. *)
Definition T (A : Type) : Type := clocked -> option (A * clocked).

Definition ret {A : Type} (a : A) : T A := fun s => Some (a, s).

Definition bind {A B : Type} (c : T A) (k : A -> T B) : T B :=
  fun s => match c s with
           | Some (a, s') => k a s'
           | None => None
           end.

Declare Scope timed_scope.
Delimit Scope timed_scope with timed.
Notation "x <- c ;; k" := (bind c (fun x => k))
  (at level 61, c at next level, right associativity) : timed_scope.
Notation "c ;; k" := (bind c (fun _ => k))
  (at level 61, right associativity) : timed_scope.

(** Code of the clockless machine takes no busy-loop turn. *)
Definition lift {A : Type} (c : Stand.M A) : T A :=
  fun s => let '(a, m) := c (mach s) in Some (a, mkClocked (spins s) m).

(** A busy loop started with [count] in its counter. *)
Definition spin (count : Z) : T unit :=
  fun s => match busy_wait enough_fuel count 0 with
           | Some n => Some (tt, mkClocked (spins s + n) (mach s))
           | None => None
           end.

Local Open Scope timed_scope.

Section Clock.

Variable F_CPU : Z.

(** [static inline uint16_t us2loops(uint16_t us)]: the product and the
    quotient are [uint32_t], the result is cut to [uint16_t]. *)
Definition us2loops (us : Z) : Z :=
  u16 (u32 (u32 (u32 us * u32 (F_CPU / 100000)) / 50 + 1)).

(** [static inline void delay_us(uint16_t us)] *)
Definition delay_us (us : Z) : T unit :=
  let us := us2loops us in
  spin us.

(** [static inline void send_pulse(uint8_t port, uint16_t width)]; the
    pulse is recorded as in the clockless machine. *)
Definition send_pulse (port width : Z) : T unit :=
  let loops := us2loops width in
  lift (Stand.put_io
          (fun r => Stand.set_PORTB
                      (Z.lor (Stand.PORTB r) (Stand._BV port)) r)) ;;
  lift (Stand.log_pulse port width) ;;
  spin loops ;;
  lift (Stand.put_io
          (fun r => Stand.set_PORTB
                      (Z.land (Stand.PORTB r) (Z.lnot (Stand._BV port))) r)).

(** One turn of the [TEST] branch of [main]:
    [delay_us(500); PORTB ^= _BV(PB0);] *)
Definition test_turn : T unit :=
  delay_us 500 ;;
  lift (Stand.put_io
          (fun r => Stand.set_PORTB
                      (Z.lxor (Stand.PORTB r) (Stand._BV Stand.PB0)) r)).

Fixpoint test_turns (n : nat) : T unit :=
  match n with
  | O => ret tt
  | S n' => test_turns n' ;; test_turn
  end.

(** [int main(void)] with [TEST], cut after [n] turns. *)
Definition main_test (n : nat) : T unit :=
  lift Stand.setup ;; test_turns n.

Section World.

Variable pots : Z -> Z.

(** [void loop(void)] *)
Definition loop : T unit :=
  let p1 := 0 in let p2 := 0 in let p3 := 0 in
  lift (Stand.set_adc_channel 1) ;;
  lift Stand.start_adc ;;
  delay_us 6000 ;;
  p1 <- lift (Stand.read_adc pots) ;;
  lift (Stand.set_adc_channel 2) ;;
  lift Stand.start_adc ;;
  delay_us 6000 ;;
  p2 <- lift (Stand.read_adc pots) ;;
  lift (Stand.set_adc_channel 3) ;;
  lift Stand.start_adc ;;
  delay_us 6000 ;;
  p3 <- lift (Stand.read_adch pots) ;;
  a <- lift Stand.get_angle ;;
  let pw := Stand.pulse_width a p1 p3 in
  a <- lift Stand.get_angle ;;
  lift (Stand.put_angle (u16 (a + u16 (Z.shiftl (u16 p2) 2)))) ;;
  send_pulse Stand.PB0 pw.

End World.

End Clock.

End Timed.

(** ** stand.c: the pin during a pulse

    The clocked machine with an oscilloscope on [PORTB]: every busy loop
    leaves a record of what the port held while it ran. *)

Module Scope.

(** [wave] holds, newest first, one entry per busy loop: the value of
    [PORTB] during the loop and the number of turns it took. *)
Record traced : Type := mkTraced {
  spins : Z;
  mach : Stand.machine;
  wave : list (Z * Z)
}.

Definition S (A : Type) : Type := traced -> option (A * traced).

Definition bind {A B : Type} (c : S A) (k : A -> S B) : S B :=
  fun s => match c s with
           | Some (a, s') => k a s'
           | None => None
           end.

Declare Scope scope_scope.
Delimit Scope scope_scope with scope.
Notation "c ;; k" := (bind c (fun _ => k))
  (at level 61, right associativity) : scope_scope.

Definition lift {A : Type} (c : Stand.M A) : S A :=
  fun s => let '(a, m) := c (mach s) in
           Some (a, mkTraced (spins s) m (wave s)).

(** A busy loop started with [count] in its counter; the port does not
    change while it runs. *)
Definition spin (count : Z) : S unit :=
  fun s => match Timed.busy_wait Timed.enough_fuel count 0 with
           | Some n =>
               Some (tt,
                     mkTraced (spins s + n) (mach s)
                       ((Stand.PORTB (Stand.io (mach s)), n) :: wave s))
           | None => None
           end.

Local Open Scope scope_scope.

Section Clock.

Variable F_CPU : Z.

(** [static inline void send_pulse(uint8_t port, uint16_t width)].  The
    arguments are values of the parameter types; the caller converts. *)
Definition send_pulse (port width : Z) : S unit :=
  let loops := Timed.us2loops F_CPU width in
  lift (Stand.put_io
          (fun r => Stand.set_PORTB
                      (Z.lor (Stand.PORTB r) (Stand._BV port)) r)) ;;
  lift (Stand.log_pulse port width) ;;
  spin loops ;;
  lift (Stand.put_io
          (fun r => Stand.set_PORTB
                      (Z.land (Stand.PORTB r) (Z.lnot (Stand._BV port))) r)).

End Clock.

End Scope.

(** ** stand.c: the phase over several turns *)

Module Phase.

(** The sum of the increments [p2 << 2] of the first [n] turns. *)
Fixpoint increments (world : nat -> Z -> Z) (n : nat) : Z :=
  match n with
  | O => 0
  | S n' => increments world n' + Z.shiftl (Stand.speed_sample (world n')) 2
  end.

End Phase.

(** ** experiments/sin11.c: inside the loop of [sq8_bit] *)

Module BitLoop.

(** The carry flag [cf] after [n] turns of the loop, started as [sq8_bit]
    starts it. *)
Definition carry_after (n : nat) (x : Z) : Z :=
  let '(_, _, cf) := Sin11.sq8_bit_loop n (u8 (Z.lnot x)) (x, 0, 0) in cf.

End BitLoop.

(** ** experiments/sin11.c: the table [main] prints *)

Module Plot.

Import Ascii String.
Local Open Scope string_scope.

(** [%3d] for a value that is not negative: decimal digits, padded with
    spaces on the left to three characters. *)
Definition fmt3d (n : Z) : string :=
  let digits := DecimalString.NilZero.string_of_uint (N.to_uint (Z.to_N n)) in
  match String.length digits with
  | 1%nat => "  " ++ digits
  | 2%nat => " " ++ digits
  | _ => digits
  end.

(** [for (i = 0; i < 1 + z / 4; i++) putchar('#');] *)
Fixpoint hashes (n : nat) : string :=
  match n with
  | O => ""
  | S n' => String "#"%char (hashes n')
  end.

Definition bar_length (z : Z) : Z := Sin11.int (1 + z / 4).

(** The body of the [for (x = 0; x < 256; x++)] loop: what one turn
    prints. *)
Definition line (x : Z) : string :=
  let z := u8 (Sin11.sin8 (u8 x)) in
  fmt3d x ++ " " ++ fmt3d z ++ "   "
  ++ hashes (Z.to_nat (bar_length z))
  ++ String (Ascii.ascii_of_nat 10) "".

(** [int main()]: the lines, in order. *)
Definition main : list string := List.map line (zrange 0 256).

End Plot.

(** * Properties *)

(** ** Integer conversions and enumeration of a type *)

Section Conversions.

Lemma to_unsigned_range (w z : Z) :
  0 <= w -> 0 <= to_unsigned w z < 2 ^ w.
Proof.
  intros Hw. unfold to_unsigned.
  apply Z.mod_pos_bound, Z.pow_pos_nonneg; lia.
Qed.

Lemma to_signed_range (w z : Z) :
  0 < w -> - 2 ^ (w - 1) <= to_signed w z < 2 ^ (w - 1).
Proof.
  intros Hw. unfold to_signed.
  assert (Hp : 2 ^ w = 2 * 2 ^ (w - 1)).
  { rewrite <- Z.pow_succ_r by lia. f_equal. lia. }
  assert (0 < 2 ^ (w - 1)) by (apply Z.pow_pos_nonneg; lia).
  pose proof (Z.mod_pos_bound (z + 2 ^ (w - 1)) (2 ^ w)) as Hm.
  lia.
Qed.

Lemma u8_range z : is_u8 (u8 z).
Proof.
  unfold is_u8, u8. pose proof (to_unsigned_range 8 z).
  change (2 ^ 8) with 256 in *. lia.
Qed.

Lemma u16_range z : is_u16 (u16 z).
Proof.
  unfold is_u16, u16. pose proof (to_unsigned_range 16 z).
  change (2 ^ 16) with 65536 in *. lia.
Qed.

Lemma s8_range z : is_s8 (s8 z).
Proof.
  unfold is_s8, s8. pose proof (to_signed_range 8 z).
  change (2 ^ (8 - 1)) with 128 in *. lia.
Qed.

Lemma s16_range z : is_s16 (s16 z).
Proof.
  unfold is_s16, s16. pose proof (to_signed_range 16 z).
  change (2 ^ (16 - 1)) with 32768 in *. lia.
Qed.

(** A value of the type is its own conversion. *)
Lemma u8_id z : is_u8 z -> u8 z = z.
Proof. unfold is_u8, u8, to_unsigned. intros. apply Z.mod_small. simpl. lia. Qed.

Lemma u16_id z : is_u16 z -> u16 z = z.
Proof. unfold is_u16, u16, to_unsigned. intros. apply Z.mod_small. simpl. lia. Qed.

Lemma s8_id z : is_s8 z -> s8 z = z.
Proof.
  unfold is_s8, s8, to_signed. intros.
  change (2 ^ (8 - 1)) with 128. change (2 ^ 8) with 256.
  rewrite Z.mod_small; lia.
Qed.

Lemma s16_id z : is_s16 z -> s16 z = z.
Proof.
  unfold is_s16, s16, to_signed. intros.
  change (2 ^ (16 - 1)) with 32768. change (2 ^ 16) with 65536.
  rewrite Z.mod_small; lia.
Qed.

Lemma zrange_In (n : nat) :
  forall lo x, lo <= x < lo + Z.of_nat n -> In x (zrange lo n).
Proof.
  induction n as [|n IH]; intros lo x Hx.
  - simpl in Hx. lia.
  - cbn [zrange]. destruct (Z.eq_dec x lo) as [->|Hne].
    + now left.
    + right. apply IH. lia.
Qed.

(** A boolean test that passes on the whole list passes on every value of
    the type. *)
Lemma check_all_u8 (P : Z -> bool) :
  forallb P all_u8 = true -> forall x, is_u8 x -> P x = true.
Proof.
  intros Hall x Hx. rewrite forallb_forall in Hall. apply Hall.
  apply zrange_In. unfold is_u8 in Hx. simpl. lia.
Qed.

Lemma check_all_s8 (P : Z -> bool) :
  forallb P all_s8 = true -> forall x, is_s8 x -> P x = true.
Proof.
  intros Hall x Hx. rewrite forallb_forall in Hall. apply Hall.
  apply zrange_In. unfold is_s8 in Hx. simpl. lia.
Qed.

End Conversions.

(** ** The square approximation and the sine of stand.c *)

Section Sine.

Local Open Scope bool_scope.

(** [sq8] returns a byte and [sin8] a signed byte, whatever the argument. *)
Lemma sq8_range x : is_u8 (Stand.sq8 x).
Proof. unfold Stand.sq8. apply u8_range. Qed.

Lemma sin8_range a : is_s8 (Stand.sin8 a).
Proof. unfold Stand.sin8. apply s8_range. Qed.

Lemma sq8_closed_form_all :
  forallb (fun x =>
             (Stand.sq8 x =? 255 - (Spec.centered x * Spec.centered x) / 128)
             && ((0 <=? x) || (Stand.sq8 x =? Spec.square_approx x)))
          all_s8 = true.
Proof. vm_compute. reflexivity. Qed.

(** C4, as the specification words it, fails: at [x = 1] the operand is
    129 when read unsigned and -127 when read signed, and the two squares
    give different bytes. *)
Lemma sq8_not_unsigned_square :
  is_s8 1 /\ Stand.sq8 1 = 129 /\ Spec.square_approx 1 = 125.
Proof. unfold is_s8. repeat split; try lia; vm_compute; reflexivity. Qed.

(** C4, amended: for every signed 8-bit [x], [sq8 x] is the complement of
    the low 8 bits of [(s * s) >> 7], where [s] is [x + 128] read as a
    SIGNED 8-bit value (so [s = x + 128] for negative [x] and
    [s = x - 128] otherwise) and the multiply is the signed widening one.
    The unsigned reading of the specification gives the same byte for
    every negative [x]. *)
Theorem sq8_signed_square (x : Z) :
  is_s8 x ->
  Stand.sq8 x = 255 - (Spec.centered x * Spec.centered x) / 128
  /\ Stand.sq8 x
     = u8 (Z.lnot (Z.shiftr (Spec.centered x * Spec.centered x) 7))
  /\ (x < 0 -> Stand.sq8 x = Spec.square_approx x).
Proof.
  intros Hx.
  pose proof (check_all_s8 _ sq8_closed_form_all x Hx) as Hall.
  cbv beta in Hall.
  apply andb_true_iff in Hall as [Hclosed Hneg].
  apply Z.eqb_eq in Hclosed.
  assert (Hsq : 0 <= Spec.centered x * Spec.centered x <= 16384).
  { unfold Spec.centered, is_s8 in *. destruct (x <? 0) eqn:E;
      [apply Z.ltb_lt in E | apply Z.ltb_ge in E]; nia. }
  split; [exact Hclosed|]. split.
  - rewrite Hclosed, Z.shiftr_div_pow2 by lia. change (2 ^ 7) with 128.
    assert (0 <= Spec.centered x * Spec.centered x / 128 <= 128).
    { split; [apply Z.div_pos; lia|].
      apply Z.div_le_upper_bound; lia. }
    unfold u8, to_unsigned, Z.lnot. change (2 ^ 8) with 256.
    apply Z.mod_unique with (q := -1); lia.
  - intros Hlt. apply orb_true_iff in Hneg as [Hge|Heq].
    + apply Z.leb_le in Hge. lia.
    + now apply Z.eqb_eq in Heq.
Qed.

Lemma sq8_signed_square_witness :
  is_s8 (-3)
  /\ Stand.sq8 (-3) = 255 - (Spec.centered (-3) * Spec.centered (-3)) / 128
  /\ Stand.sq8 (-3)
     = u8 (Z.lnot (Z.shiftr (Spec.centered (-3) * Spec.centered (-3)) 7))
  /\ (-3 < 0 -> Stand.sq8 (-3) = Spec.square_approx (-3)).
Proof.
  split; [unfold is_s8; lia|].
  apply (sq8_signed_square (-3)). unfold is_s8. lia.
Defined.

(** C3, as stated, fails at the first landmark: [sin8 0] is -1. *)
Lemma sin8_zero_is_minus_one : Stand.sin8 0 = -1 /\ Stand.sin8 0 <> 0.
Proof. split; [vm_compute; reflexivity | vm_compute; discriminate]. Qed.

(** C3, amended: the landmark values of the zero-centered sine are
    [sin8 0 = -1], [sin8 64 = 127], [sin8 128 = 0] and [sin8 192 = -128]. *)
Theorem sin8_landmarks :
  Stand.sin8 0 = -1 /\ Stand.sin8 64 = 127
  /\ Stand.sin8 128 = 0 /\ Stand.sin8 192 = -128.
Proof. repeat split; vm_compute; reflexivity. Qed.

(** The two halves of a period read the same value of [sq8]. *)
Lemma sq8_arg_half_period a :
  s8 (Stand.int (Z.shiftl (u8 (a + 128)) 1))
  = s8 (Stand.int (Z.shiftl a 1)).
Proof.
  rewrite !Z.shiftl_mul_pow2 by lia. change (2 ^ 1) with 2.
  unfold s8, Stand.int, Stand.int_bits, u8, to_signed, to_unsigned.
  change (2 ^ (8 - 1)) with 128. change (2 ^ 8) with 256.
  change (2 ^ (16 - 1)) with 32768. change (2 ^ 16) with 65536.
  f_equal.
  pose proof (Z.div_mod (a + 128) 256 ltac:(lia)).
  pose proof (Z.mod_pos_bound (a + 128) 256 ltac:(lia)).
  pose proof (Z.div_mod ((a + 128) mod 256 * 2 + 32768) 65536 ltac:(lia)).
  pose proof (Z.div_mod (a * 2 + 32768) 65536 ltac:(lia)).
  set (u := (a + 128) mod 256) in *.
  set (p := (u * 2 + 32768) mod 65536) in *.
  set (q := (a * 2 + 32768) mod 65536) in *.
  replace (p - 32768 + 128)
    with (q - 32768 + 128
          + (((a * 2 + 32768) / 65536 - (u * 2 + 32768) / 65536) * 256
             - (a + 128) / 256 * 2 + 1) * 256) by lia.
  apply Z.mod_add. lia.
Qed.

(** ... and test the top bit of the angle with opposite results. *)
Lemma top_bit_half_period a :
  truthy (Z.land (u8 (a + 128)) 128) = negb (truthy (Z.land a 128)).
Proof.
  assert (Hbit : forall z, truthy (Z.land z 128) = Z.testbit z 7).
  { intros z. unfold truthy. change 128 with (2 ^ 7).
    destruct (Z.testbit z 7) eqn:E.
    - replace (Z.land z (2 ^ 7)) with (2 ^ 7); [reflexivity|].
      apply Z.bits_inj'. intros n Hn. rewrite Z.land_spec.
      destruct (Z.eq_dec n 7) as [->|Hne].
      + rewrite E, Z.pow2_bits_true by lia. reflexivity.
      + rewrite Z.pow2_bits_false by lia. now rewrite andb_false_r.
    - replace (Z.land z (2 ^ 7)) with 0; [reflexivity|].
      apply Z.bits_inj'. intros n Hn. rewrite Z.land_spec, Z.bits_0.
      destruct (Z.eq_dec n 7) as [->|Hne].
      + now rewrite E.
      + rewrite Z.pow2_bits_false by lia. now rewrite andb_false_r. }
  rewrite !Hbit. unfold u8, to_unsigned.
  rewrite Z.mod_pow2_bits_low by lia.
  rewrite !Z.testbit_eqb by lia.
  change 128 with (1 * 2 ^ 7). rewrite Z.div_add by lia.
  set (h := a / 2 ^ 7).
  pose proof (Z.mod_pos_bound h 2 ltac:(lia)) as Hr.
  pose proof (Z.div_mod h 2 ltac:(lia)) as Hh.
  destruct (Z.eq_dec (h mod 2) 0) as [E|E].
  - rewrite E. replace ((h + 1) mod 2) with 1; [reflexivity|].
    apply Z.mod_unique with (q := h / 2); lia.
  - replace (h mod 2) with 1 by lia.
    replace ((h + 1) mod 2) with 0; [reflexivity|].
    apply Z.mod_unique with (q := h / 2 + 1); lia.
Qed.

(** Complementing a byte, and moving a byte from the unsigned to the
    signed scale. *)
Lemma u8_lnot r : is_u8 r -> u8 (Z.lnot r) = 255 - r.
Proof.
  unfold is_u8, u8, to_unsigned, Z.lnot. intros Hr. change (2 ^ 8) with 256.
  symmetry. apply Z.mod_unique with (q := -1); lia.
Qed.

Lemma recenter_16 r : is_u8 r -> s8 (Stand.int (r + 128)) = r - 128.
Proof.
  intros Hr. unfold is_u8 in Hr. unfold Stand.int, Stand.int_bits.
  change (to_signed 16) with s16.
  rewrite s16_id by (unfold is_s16; lia).
  unfold s8, to_signed. change (2 ^ (8 - 1)) with 128. change (2 ^ 8) with 256.
  replace (r + 128 + 128) with (r + 1 * 256) by lia.
  rewrite Z.mod_add, Z.mod_small by lia. reflexivity.
Qed.

(** [sin8] with the conversions resolved: the byte [sq8] gives, or its
    complement in the second half-period, moved down by 128. *)
Lemma sin8_unfold a :
  Stand.sin8 a
  = (if truthy (Z.land a 128)
     then 255 - Stand.sq8 (s8 (Stand.int (Z.shiftl a 1)))
     else Stand.sq8 (s8 (Stand.int (Z.shiftl a 1)))) - 128.
Proof.
  unfold Stand.sin8. cbv zeta.
  pose proof (sq8_range (s8 (Stand.int (Z.shiftl a 1)))) as Hr.
  destruct (truthy (Z.land a 128)).
  - rewrite u8_lnot by exact Hr.
    apply recenter_16. unfold is_u8 in *. lia.
  - now apply recenter_16.
Qed.

(** C10: half a period later the sine is the bitwise complement of its
    former value: [sin8 ((a + 128) mod 256) = -1 - sin8 a], so the two
    values sum to 255 modulo 256, and the second one is never the exact
    negation of the first. *)
Theorem sin8_half_period_complement (a : Z) :
  Stand.sin8 (u8 (a + 128)) = -1 - Stand.sin8 a
  /\ Stand.sin8 (u8 (a + 128)) = Z.lnot (Stand.sin8 a)
  /\ (Stand.sin8 a + Stand.sin8 (u8 (a + 128))) mod 256 = 255
  /\ Stand.sin8 (u8 (a + 128)) <> - Stand.sin8 a.
Proof.
  assert (H : Stand.sin8 (u8 (a + 128)) = -1 - Stand.sin8 a).
  { rewrite !sin8_unfold, sq8_arg_half_period, top_bit_half_period.
    destruct (truthy (Z.land a 128)); simpl negb; cbv iota; lia. }
  repeat split.
  - exact H.
  - rewrite H. unfold Z.lnot. lia.
  - rewrite H. replace (Stand.sin8 a + (-1 - Stand.sin8 a)) with (-1) by lia.
    reflexivity.
  - lia.
Qed.

End Sine.

(** ** experiments/sin11.c: the two sines and the two squares *)

Section Experiment.

Local Open Scope bool_scope.

Lemma recenter_32 r : is_u8 r -> s8 (Sin11.int (r + 128)) = r - 128.
Proof.
  intros Hr. unfold is_u8 in Hr.
  unfold Sin11.int, Sin11.int_bits, s8, to_signed.
  change (2 ^ (8 - 1)) with 128. change (2 ^ 8) with 256.
  change (2 ^ (32 - 1)) with 2147483648. change (2 ^ 32) with 4294967296.
  rewrite (Z.mod_small (r + 128 + 2147483648)) by lia.
  replace (r + 128 + 2147483648 - 2147483648 + 128) with (r + 1 * 256) by lia.
  rewrite Z.mod_add, Z.mod_small by lia. reflexivity.
Qed.

Lemma sq8_imul_range x : is_u8 (Sin11.sq8_imul x).
Proof. unfold Sin11.sq8_imul. apply u8_range. Qed.

Lemma sq8_bit_range x : is_u8 (Sin11.sq8_bit x).
Proof.
  unfold Sin11.sq8_bit.
  destruct (Sin11.sq8_bit_loop 8 (u8 (Z.lnot x)) (x, 0, 0)) as [[? out] ?].
  apply u8_range.
Qed.

(** Whatever function the macro [sq8] names, as long as it returns a
    byte, the 128-centered sine is the zero-centered one moved up by 128. *)
Lemma sinu8_with_is_sin8_with_plus_128 (sq : Z -> Z) :
  (forall z, is_u8 (sq z)) ->
  forall a, Sin11.sinu8_with sq a = (Sin11.sin8_with sq a + 128) mod 256.
Proof.
  intros Hsq a. unfold Sin11.sinu8_with, Sin11.sin8_with. cbv zeta.
  assert (Hback : forall r, is_u8 r ->
                    r = (s8 (Sin11.int (r + 128)) + 128) mod 256).
  { intros r Hr. rewrite recenter_32 by exact Hr.
    unfold is_u8 in Hr. replace (r - 128 + 128) with r by lia.
    symmetry. apply Z.mod_small. lia. }
  destruct (truthy (Z.land a 128)); apply Hback.
  - apply u8_range.
  - apply Hsq.
Qed.

(** C7: for every angle, [sinu8 a = (sin8 a + 128) mod 256]. *)
Theorem sinu8_is_sin8_plus_128 (a : Z) :
  Sin11.sinu8 a = (Sin11.sin8 a + 128) mod 256.
Proof.
  apply sinu8_with_is_sin8_with_plus_128.
  intros z. apply sq8_imul_range.
Qed.

(** [sq8_imul] is the [sq8] of the firmware: the wider [int] of the host
    changes nothing. *)
Lemma sq8_imul_is_sq8_all :
  forallb (fun x => Sin11.sq8_imul x =? Stand.sq8 x) all_s8 = true.
Proof. vm_compute. reflexivity. Qed.

Lemma sq8_imul_is_sq8 x : is_s8 x -> Sin11.sq8_imul x = Stand.sq8 x.
Proof.
  intros Hx. apply Z.eqb_eq.
  exact (check_all_s8 _ sq8_imul_is_sq8_all x Hx).
Qed.

(** The sine of the experiment is the sine of the firmware. *)
Lemma sin8_experiment_is_firmware a : Sin11.sin8 a = Stand.sin8 a.
Proof.
  unfold Sin11.sin8, Sin11.sin8_with, Stand.sin8, Sin11.sq8. cbv zeta.
  assert (Harg : s8 (Sin11.int (Z.shiftl a 1)) = s8 (Stand.int (Z.shiftl a 1))).
  { unfold s8, Sin11.int, Stand.int, Sin11.int_bits, Stand.int_bits, to_signed.
    change (2 ^ (8 - 1)) with 128. change (2 ^ 8) with 256.
    change (2 ^ (32 - 1)) with 2147483648. change (2 ^ 32) with 4294967296.
    change (2 ^ (16 - 1)) with 32768. change (2 ^ 16) with 65536.
    f_equal. set (v := Z.shiftl a 1).
    pose proof (Z.div_mod (v + 2147483648) 4294967296 ltac:(lia)).
    pose proof (Z.div_mod (v + 32768) 65536 ltac:(lia)).
    set (p := (v + 2147483648) mod 4294967296) in *.
    set (q := (v + 32768) mod 65536) in *.
    replace (p - 2147483648 + 128)
      with (q - 32768 + 128
            + ((v + 32768) / 65536 * 256
               - (v + 2147483648) / 4294967296 * 16777216) * 256) by lia.
    apply Z.mod_add. lia. }
  rewrite Harg.
  rewrite sq8_imul_is_sq8 by apply s8_range.
  pose proof (sq8_range (s8 (Stand.int (Z.shiftl a 1)))) as Hr.
  destruct (truthy (Z.land a 128)).
  - rewrite recenter_32, recenter_16; [reflexivity| |]; apply u8_range.
  - rewrite recenter_32, recenter_16; [reflexivity| |]; exact Hr.
Qed.

End Experiment.

(** ** The registers and the samples *)

Section Registers.

Local Open Scope bool_scope.

(** Writing a register keeps the low 8 bits. *)
Lemma u8_land z : u8 z = Z.land z 255.
Proof.
  unfold u8, to_unsigned. change 255 with (Z.ones 8).
  now rewrite Z.land_ones by lia.
Qed.

(** [ADCSRA |= _BV(ADSC)] starts a conversion. *)
Lemma adsc_after_start a : Z.testbit (u8 (Z.lor a 64)) 6 = true.
Proof.
  rewrite u8_land, Z.land_spec, Z.lor_spec.
  change (Z.testbit 64 6) with true. change (Z.testbit 255 6) with true.
  now rewrite orb_true_r.
Qed.

(** The two [MUX] bits hold the channel that was selected, whatever the
    other bits of [ADMUX] are. *)
Lemma mux_after_select a c :
  0 <= c <= 3 -> Z.land (u8 (Z.lor (Z.land a (Z.lnot 3)) c)) 3 = c.
Proof.
  intros Hc. rewrite u8_land, <- Z.land_assoc.
  change (Z.land 255 3) with 3.
  rewrite Z.land_lor_distr_l, <- Z.land_assoc.
  change (Z.land (Z.lnot 3) 3) with 0.
  rewrite Z.land_0_r, Z.lor_0_l.
  change 3 with (Z.ones 2). rewrite Z.land_ones by lia.
  apply Z.mod_small. change (2 ^ 2) with 4. lia.
Qed.

Lemma adlar_after_clear a :
  Z.testbit (u8 (Z.land a (Z.lnot 32))) 5 = false.
Proof.
  rewrite u8_land, !Z.land_spec.
  change (Z.testbit (Z.lnot 32) 5) with false.
  now rewrite andb_false_r.
Qed.

Lemma adlar_after_set a : Z.testbit (u8 (Z.lor a 32)) 5 = true.
Proof.
  rewrite u8_land, Z.land_spec, Z.lor_spec.
  change (Z.testbit 32 5) with true. change (Z.testbit 255 5) with true.
  now rewrite orb_true_r.
Qed.

(** [ADCL + ((uint16_t)ADCH << 8)] puts a right-aligned result back
    together. *)
Lemma adc_word_reassembled v :
  0 <= v < 1024 ->
  u16 (u8 v + u16 (Z.shiftl (u16 (Z.shiftr v 8)) 8)) = v.
Proof.
  intros Hv. rewrite Z.shiftr_div_pow2 by lia. change (2 ^ 8) with 256.
  assert (0 <= v / 256 <= 3).
  { split; [apply Z.div_pos; lia|].
    enough (v / 256 < 4) by lia. apply Z.div_lt_upper_bound; lia. }
  rewrite (u16_id (v / 256)) by (unfold is_u16; lia).
  rewrite Z.shiftl_mul_pow2 by lia. change (2 ^ 8) with 256.
  rewrite (u16_id (v / 256 * 256)) by (unfold is_u16; lia).
  unfold u8, to_unsigned. change (2 ^ 8) with 256.
  pose proof (Z.div_mod v 256 ltac:(lia)).
  replace (v mod 256 + v / 256 * 256) with v by lia.
  apply u16_id. unfold is_u16. lia.
Qed.

Variable pots : Z -> Z.

Ltac run_io :=
  cbv beta iota zeta delta
    [Stand.bind Stand.set_adc_channel Stand.start_adc Stand.delay_us
     Stand.read_adc Stand.read_adch Stand.wait_adc Stand.put_io
     Stand.get_io Stand.ret Stand.adc_finish Stand.ADCH Stand.ADCL
     adc_regs Stand.io Stand.angle Stand.pulses Stand.ADMUX Stand.ADCSRA
     Stand.ADCW Stand.PORTB Stand.DDRB Stand.set_ADMUX Stand.set_ADCSRA
     Stand.set_ADCW];
  change (Stand._BV Stand.ADSC) with 64;
  change (Stand._BV Stand.ADLAR) with 32;
  change Stand.ADSC with 6; change Stand.ADLAR with 5;
  change (Z.lor (Stand._BV Stand.MUX1) (Stand._BV Stand.MUX0)) with 3;
  change (Z.lor 0 (Stand._BV Stand.MUX0)) with 1;
  change (Z.lor (Stand._BV Stand.MUX1) 0) with 2.

(** Select, start, wait, read 10 bits: the value read is what the selected
    potentiometer gives, and only registers change. *)
Lemma sample10_step {A : Type} (ch us : Z) (k : Z -> Stand.M A) m :
  ch = 1 \/ ch = 2 ->
  Stand.bind (Stand.set_adc_channel ch)
    (fun _ => Stand.bind Stand.start_adc
      (fun _ => Stand.bind (Stand.delay_us us)
        (fun _ => Stand.bind (Stand.read_adc pots) k))) m
  = k (pots ch mod 1024)
      (Stand.mkMachine (Stand.angle m) (adc_regs pots ch false (Stand.io m))
         (Stand.pulses m)).
Proof.
  destruct m as [a [ddrb portb admux adcsra adcw] ps].
  assert (Hv : forall c, 0 <= pots c mod 1024 < 1024)
    by (intros c; apply Z.mod_pos_bound; lia).
  intros [-> | ->]; run_io;
    rewrite adsc_after_start; run_io;
    rewrite adlar_after_clear, mux_after_select by lia;
    rewrite adc_word_reassembled by apply Hv;
    reflexivity.
Qed.

(** The same with the 8-bit read of channel 3. *)
Lemma sample8_step {A : Type} (us : Z) (k : Z -> Stand.M A) m :
  Stand.bind (Stand.set_adc_channel 3)
    (fun _ => Stand.bind Stand.start_adc
      (fun _ => Stand.bind (Stand.delay_us us)
        (fun _ => Stand.bind (Stand.read_adch pots) k))) m
  = k (Z.shiftr (pots 3 mod 1024) 2)
      (Stand.mkMachine (Stand.angle m) (adc_regs pots 3 true (Stand.io m))
         (Stand.pulses m)).
Proof.
  destruct m as [a [ddrb portb admux adcsra adcw] ps].
  run_io.
  rewrite adsc_after_start. run_io.
  rewrite adlar_after_set, mux_after_select by lia.
  reflexivity.
Qed.

(** One turn of [loop], in full: the new phase, the registers, and the
    pulse that was sent. *)
Lemma loop_effect m :
  Stand.loop pots m
  = (tt,
     Stand.mkMachine
       (u16 (Stand.angle m
             + u16 (Z.shiftl (u16 (Stand.speed_sample pots)) 2)))
       (loop_regs pots (Stand.io m))
       ((Stand.PB0,
         Stand.pulse_width (Stand.angle m) (Stand.offset_sample pots)
           (Stand.amplitude_sample pots))
          :: Stand.pulses m)).
Proof.
  unfold Stand.loop. cbv zeta.
  rewrite sample10_step by (left; reflexivity).
  rewrite sample10_step by (right; reflexivity).
  rewrite sample8_step.
  reflexivity.
Qed.

(** Bit [n] of a register is one of its 8 bits or is clear. *)
Lemma testbit_255_high n : 8 <= n -> Z.testbit 255 n = false.
Proof.
  intros Hn. change 255 with (Z.ones 8). apply Z.ones_spec_high. lia.
Qed.

(** Equality of two register values built from [a] with masks, bit by
    bit: bits 0 to 7 by cases on the bit of [a], the others are clear. *)
Ltac bit_of a k :=
  subst; generalize (Z.testbit a k); intros [|]; reflexivity.

Ltac bits8 a :=
  let n := fresh "n" in
  let Hn := fresh "Hn" in
  let Hc := fresh "Hc" in
  apply Z.bits_inj'; intros n Hn;
  rewrite ?u8_land;
  repeat (first [rewrite Z.land_spec | rewrite Z.lor_spec]);
  destruct (Z_lt_le_dec n 8) as [Hc|Hc];
  [ assert (n = 0 \/ n = 1 \/ n = 2 \/ n = 3
            \/ n = 4 \/ n = 5 \/ n = 6 \/ n = 7) as
      [?|[?|[?|[?|[?|[?|[?|?]]]]]]] by lia;
    [ bit_of a 0 | bit_of a 1 | bit_of a 2 | bit_of a 3
    | bit_of a 4 | bit_of a 5 | bit_of a 6 | bit_of a 7 ]
  | rewrite (testbit_255_high n Hc), ?andb_false_r; reflexivity ].

(** After one turn of [loop] the control registers have settled: a further
    turn, whatever the potentiometers give, leaves them as it found them.
    Only the conversion result [ADCW] follows the inputs. *)
Lemma control_registers_settle (pots' : Z -> Z) (r : Stand.regs) :
  let r1 := loop_regs pots r in
  let r2 := loop_regs pots' r1 in
  Stand.DDRB r2 = Stand.DDRB r1 /\ Stand.PORTB r2 = Stand.PORTB r1
  /\ Stand.ADMUX r2 = Stand.ADMUX r1 /\ Stand.ADCSRA r2 = Stand.ADCSRA r1.
Proof.
  destruct r as [ddrb portb admux adcsra adcw].
  cbv beta iota zeta delta
    [loop_regs pulse_regs adc_regs Stand.set_PORTB Stand.DDRB Stand.PORTB
     Stand.ADMUX Stand.ADCSRA Stand.ADCW].
  split; [reflexivity|]. split; [|split].
  - bits8 portb.
  - bits8 admux.
  - bits8 adcsra.
Qed.

End Registers.

(** ** The bit-only square against the multiply-based one *)

Section BitOnly.

Local Open Scope bool_scope.

Lemma sq8_bit_upper_half_all :
  forallb (fun x =>
             (x <? 128)
             || ((Sin11.sq8_imul (s8 x) - 2 <=? Sin11.sq8_bit x)
                 && (Sin11.sq8_bit x <=? Sin11.sq8_imul (s8 x))))
          all_u8 = true.
Proof. vm_compute. reflexivity. Qed.

Lemma sin8_bit_second_quarters_all :
  forallb (fun a =>
             negb (Z.testbit a 6)
             || ((-2 <=? Sin11.sin8_bit a - Sin11.sin8 a)
                 && (Sin11.sin8_bit a - Sin11.sin8 a <=? 2)))
          all_u8 = true.
Proof. vm_compute. reflexivity. Qed.

(** C1, as stated, fails already at 0: the bit-only square gives 128
    where the multiply-based one gives 127, and the two sines differ at
    phase 0. *)
Lemma sq8_bit_differs_from_imul :
  is_u8 0
  /\ Sin11.sq8_bit 0 = 128 /\ Sin11.sq8_imul (s8 0) = 127
  /\ Sin11.sin8_bit 0 = 0 /\ Sin11.sin8 0 = -1.
Proof. unfold is_u8. repeat split; try lia; vm_compute; reflexivity. Qed.

(** C1, amended: the bit-only square approximates the multiply-based one
    instead of equalling it.  On every byte [x] with the top bit set it is
    at most 2 below [sq8_imul] of the same bit pattern and never above
    it; so on every phase [a] with bit 6 set (where the sine passes such
    an [x]) the two sines differ by at most 2. *)
Theorem sq8_bit_approximates_imul (x a : Z) :
  128 <= x <= 255 ->
  is_u8 a -> Z.testbit a 6 = true ->
  (Sin11.sq8_imul (s8 x) - 2 <= Sin11.sq8_bit x <= Sin11.sq8_imul (s8 x))
  /\ (-2 <= Sin11.sin8_bit a - Sin11.sin8 a <= 2).
Proof.
  intros Hx Ha Hbit. split.
  - pose proof (check_all_u8 _ sq8_bit_upper_half_all x) as H.
    cbv beta in H. specialize (H ltac:(unfold is_u8; lia)).
    apply orb_true_iff in H as [H|H].
    + apply Z.ltb_lt in H. lia.
    + apply andb_true_iff in H as [H1 H2].
      apply Z.leb_le in H1, H2. lia.
  - pose proof (check_all_u8 _ sin8_bit_second_quarters_all a Ha) as H.
    cbv beta in H. rewrite Hbit in H. cbn [negb orb] in H.
    apply andb_true_iff in H as [H1 H2].
    apply Z.leb_le in H1, H2. lia.
Qed.

Lemma sq8_bit_approximates_imul_witness :
  (Sin11.sq8_imul (s8 200) - 2 <= Sin11.sq8_bit 200
   <= Sin11.sq8_imul (s8 200))
  /\ (-2 <= Sin11.sin8_bit 100 - Sin11.sin8 100 <= 2).
Proof.
  apply (sq8_bit_approximates_imul 200 100).
  - lia.
  - unfold is_u8. lia.
  - reflexivity.
Defined.

End BitOnly.

(** ** The pulse width *)

Section PulseWidth.

Lemma s16_of_u16 z : is_s16 z -> s16 (u16 z) = z.
Proof.
  intros Hz. unfold is_s16 in Hz. unfold s16, u16, to_signed, to_unsigned.
  change (2 ^ (16 - 1)) with 32768. change (2 ^ 16) with 65536.
  rewrite Z.add_mod_idemp_l by lia. rewrite Z.mod_small; lia.
Qed.

Lemma int16_id z : is_s16 z -> Stand.int z = z.
Proof. apply s16_id. Qed.

Lemma offset_sample_range pots : 0 <= Stand.offset_sample pots <= 1023.
Proof.
  unfold Stand.offset_sample.
  pose proof (Z.mod_pos_bound (pots 1) 1024 ltac:(lia)). lia.
Qed.

Lemma speed_sample_range pots : 0 <= Stand.speed_sample pots <= 1023.
Proof.
  unfold Stand.speed_sample.
  pose proof (Z.mod_pos_bound (pots 2) 1024 ltac:(lia)). lia.
Qed.

Lemma amplitude_sample_range pots : 0 <= Stand.amplitude_sample pots <= 255.
Proof.
  unfold Stand.amplitude_sample.
  pose proof (Z.mod_pos_bound (pots 3) 1024 ltac:(lia)).
  rewrite Z.shiftr_div_pow2 by lia. change (2 ^ 2) with 4.
  split; [apply Z.div_pos; lia|].
  enough (pots 3 mod 1024 / 4 < 256) by lia.
  apply Z.div_lt_upper_bound; lia.
Qed.

(** The sine term of the pulse width: between -510 and 506, and never
    below [-2 * p3]. *)
Lemma sine_term_range s p3 :
  is_s8 s -> 0 <= p3 <= 255 ->
  -32640 <= s * p3 <= 32385
  /\ -510 <= Z.shiftr (s * p3) 6 <= 506
  /\ -2 * p3 <= Z.shiftr (s * p3) 6.
Proof.
  unfold is_s8. intros Hs Hp.
  assert (Hprod : -32640 <= s * p3 <= 32385) by nia.
  rewrite Z.shiftr_div_pow2 by lia. change (2 ^ 6) with 64.
  repeat split; try lia.
  - apply Z.div_le_lower_bound; lia.
  - enough (s * p3 / 64 < 507) by lia.
    apply Z.div_lt_upper_bound; lia.
  - apply Z.div_le_lower_bound; nia.
Qed.

(** The [int] arithmetic of the expression never overflows: the value
    assigned to [pw] is the exact value of the formula, reduced modulo
    [2^16] by the assignment alone. *)
Lemma pulse_width_exact_mod angle p1 p3 :
  is_u16 angle -> 0 <= p1 <= 1023 -> 0 <= p3 <= 255 ->
  Stand.pulse_width angle p1 p3 = u16 (Spec.pulse_width_exact angle p1 p3)
  /\ 476 + 2 * p1 - 2 * p3 <= Spec.pulse_width_exact angle p1 p3
  /\ 2 * p1 - 34 <= Spec.pulse_width_exact angle p1 p3 <= 2 * p1 + 982.
Proof.
  intros Ha Hp1 Hp3. unfold is_u16 in Ha.
  unfold Stand.pulse_width, Spec.pulse_width_exact.
  assert (Htop : u8 (Z.shiftr angle 8) = Z.shiftr angle 8).
  { apply u8_id. unfold is_u8. rewrite Z.shiftr_div_pow2 by lia.
    change (2 ^ 8) with 256. split; [apply Z.div_pos; lia|].
    enough (angle / 256 < 256) by lia. apply Z.div_lt_upper_bound; lia. }
  rewrite Htop. set (s := Stand.sin8 (Z.shiftr angle 8)).
  pose proof (sin8_range (Z.shiftr angle 8)) as Hs. fold s in Hs.
  destruct (sine_term_range s p3 Hs Hp3) as (Hprod & Hterm & Hlow).
  unfold is_s8 in Hs.
  rewrite (s16_of_u16 (p1 - 512)) by (unfold is_s16; lia).
  rewrite (s16_id s) by (unfold is_s16; lia).
  rewrite !Z.shiftl_mul_pow2 by lia. change (2 ^ 1) with 2.
  rewrite (int16_id ((p1 - 512) * 2)) by (unfold is_s16; lia).
  rewrite (int16_id (1500 + (p1 - 512) * 2)) by (unfold is_s16; lia).
  rewrite (int16_id (s * p3)) by (unfold is_s16; lia).
  rewrite int16_id by (unfold is_s16; lia).
  repeat split; lia.
Qed.

(** With the offset at 0, the amplitude at 255 and the sine at its minimum
    the formula gives -34, and the 16-bit variable receives 65502. *)
Lemma pulse_width_wraps_below_zero :
  is_u16 49152 /\ 0 <= 0 <= 1023 /\ 0 <= 255 <= 255
  /\ Spec.pulse_width_exact 49152 0 255 = -34
  /\ Stand.pulse_width 49152 0 255 = 65502.
Proof.
  unfold is_u16. repeat split; try lia; vm_compute; reflexivity.
Qed.

(** What the expression computes, for every offset sample in [0,1023],
    amplitude sample in [0,255] and phase: the exact value of the formula
    lies in [-34, 3028]; the [int] arithmetic never overflows, so [pw] is
    that value modulo [2^16]; and [pw] is the exact value whenever
    [p3 <= p1 + 238]. *)
Theorem pulse_width_range (angle p1 p3 : Z) :
  is_u16 angle -> 0 <= p1 <= 1023 -> 0 <= p3 <= 255 ->
  -34 <= Spec.pulse_width_exact angle p1 p3 <= 3028
  /\ Stand.pulse_width angle p1 p3 = u16 (Spec.pulse_width_exact angle p1 p3)
  /\ (p3 <= p1 + 238 ->
      0 <= Spec.pulse_width_exact angle p1 p3
      /\ Stand.pulse_width angle p1 p3 = Spec.pulse_width_exact angle p1 p3).
Proof.
  intros Ha Hp1 Hp3.
  destruct (pulse_width_exact_mod angle p1 p3 Ha Hp1 Hp3) as (Hpw & Hlow & Hb).
  split; [lia|]. split; [exact Hpw|].
  intros Hsafe. split; [lia|].
  rewrite Hpw. apply u16_id. unfold is_u16. lia.
Qed.

Lemma pulse_width_range_witness :
  -34 <= Spec.pulse_width_exact 16384 700 255 <= 3028
  /\ Stand.pulse_width 16384 700 255
     = u16 (Spec.pulse_width_exact 16384 700 255)
  /\ (255 <= 700 + 238 ->
      0 <= Spec.pulse_width_exact 16384 700 255
      /\ Stand.pulse_width 16384 700 255
         = Spec.pulse_width_exact 16384 700 255).
Proof.
  apply (pulse_width_range 16384 700 255); unfold is_u16; lia.
Defined.

Variable pots : Z -> Z.

(** C5: with the offset sample at its midpoint 512 and the amplitude
    sample at 0, the pulse [loop] sends is 1500 microseconds wide,
    whatever the phase. *)
Theorem centered_pulse_is_1500 (m : Stand.machine) :
  Stand.offset_sample pots = 512 ->
  Stand.amplitude_sample pots = 0 ->
  Stand.pulses (snd (Stand.loop pots m))
  = (Stand.PB0, 1500) :: Stand.pulses m.
Proof.
  intros Hoff Hamp. rewrite loop_effect. cbn [snd Stand.pulses].
  rewrite Hoff, Hamp. do 2 f_equal.
  unfold Stand.pulse_width. rewrite Z.mul_0_r. reflexivity.
Qed.

(** C6: with the offset sample at 512 and the amplitude sample at 255,
    the pulse [loop] sends is between 990 and 2006 microseconds wide at
    every phase, and it is the exact value of the formula: nothing
    wraps. *)
Theorem full_amplitude_pulse_in_range (m : Stand.machine) :
  is_u16 (Stand.angle m) ->
  Stand.offset_sample pots = 512 ->
  Stand.amplitude_sample pots = 255 ->
  exists pw,
    Stand.pulses (snd (Stand.loop pots m)) = (Stand.PB0, pw) :: Stand.pulses m
    /\ 990 <= pw <= 2006
    /\ pw = Spec.pulse_width_exact (Stand.angle m) 512 255.
Proof.
  intros Ha Hoff Hamp.
  exists (Stand.pulse_width (Stand.angle m) 512 255).
  rewrite loop_effect. cbn [snd Stand.pulses]. rewrite Hoff, Hamp.
  split; [reflexivity|].
  destruct (pulse_width_exact_mod (Stand.angle m) 512 255 Ha
              ltac:(lia) ltac:(lia)) as (Hpw & Hlow & Hb).
  assert (Hid : Stand.pulse_width (Stand.angle m) 512 255
                = Spec.pulse_width_exact (Stand.angle m) 512 255).
  { rewrite Hpw. apply u16_id. unfold is_u16. lia. }
  rewrite Hid. split; [lia | reflexivity].
Qed.

End PulseWidth.

Lemma centered_pulse_is_1500_witness :
  Stand.pulses
    (snd (Stand.loop (fixed_pots 512 300 0)
            (Stand.mkMachine 12345 zero_regs [])))
  = (Stand.PB0, 1500) :: [].
Proof.
  apply (centered_pulse_is_1500 (fixed_pots 512 300 0)
           (Stand.mkMachine 12345 zero_regs [])); reflexivity.
Defined.

Lemma full_amplitude_pulse_in_range_witness :
  exists pw,
    Stand.pulses
      (snd (Stand.loop (fixed_pots 512 300 1023)
              (Stand.mkMachine 16384 zero_regs [])))
    = (Stand.PB0, pw) :: []
    /\ 990 <= pw <= 2006
    /\ pw = Spec.pulse_width_exact 16384 512 255.
Proof.
  apply (full_amplitude_pulse_in_range (fixed_pots 512 300 1023)
           (Stand.mkMachine 16384 zero_regs [])).
  - unfold is_u16. simpl. lia.
  - reflexivity.
  - reflexivity.
Defined.

(** ** The phase accumulator *)

Section Phase.

(** The phase is a 16-bit value after every turn. *)
Lemma angle_after_loop pots m :
  Stand.angle (snd (Stand.loop pots m))
  = u16 (Stand.angle m + Z.shiftl (Stand.speed_sample pots) 2).
Proof.
  rewrite loop_effect. cbn [snd Stand.angle].
  pose proof (speed_sample_range pots) as Hp.
  rewrite (u16_id (Stand.speed_sample pots)) by (unfold is_u16; lia).
  unfold u16, to_unsigned. now rewrite Z.add_mod_idemp_r by lia.
Qed.

Lemma setup_keeps_angle m : Stand.angle (snd (Stand.setup m)) = Stand.angle m.
Proof. reflexivity. Qed.

(** C8: [n] turns of [loop] that all sample the same speed [p2] move the
    phase from [a] to [(a + n * (p2 << 2)) mod 2^16]: the same as one
    addition of [n] times the increment. *)
Theorem phase_accumulates (world : nat -> Z -> Z) (n : nat)
    (m : Stand.machine) (p2 : Z) :
  is_u16 (Stand.angle m) ->
  (forall i, (i < n)%nat -> Stand.speed_sample (world i) = p2) ->
  Stand.angle (Stand.run world n m)
  = u16 (Stand.angle m + Z.of_nat n * Z.shiftl p2 2).
Proof.
  intros Ha. induction n as [|n IH]; intros Hsame.
  - cbn [Stand.run]. rewrite Z.mul_0_l, Z.add_0_r.
    symmetry. now apply u16_id.
  - cbn [Stand.run]. rewrite angle_after_loop.
    rewrite IH by (intros i Hi; apply Hsame; lia).
    rewrite (Hsame n) by lia.
    unfold u16, to_unsigned. rewrite Z.add_mod_idemp_l by lia.
    f_equal. lia.
Qed.

Lemma phase_accumulates_witness :
  Stand.angle
    (Stand.run (fun _ => fixed_pots 512 1023 128) 20
       (Stand.mkMachine 65000 zero_regs []))
  = u16 (65000 + Z.of_nat 20 * Z.shiftl 1023 2).
Proof.
  apply (phase_accumulates (fun _ => fixed_pots 512 1023 128) 20
           (Stand.mkMachine 65000 zero_regs []) 1023).
  - unfold is_u16. simpl. lia.
  - intros i _. reflexivity.
Defined.

(** C9: [angle] starts at zero and is the only thing one turn of [loop]
    hands to the next.  The new phase and the pulse depend on the old phase
    and on this turn's samples alone; two machines that agree on [angle]
    send the same pulse and reach the same phase, whatever their registers
    hold; and the control registers, once a turn has set them, are left
    unchanged by every later turn. *)
Theorem angle_is_the_only_carried_state (pots pots' : Z -> Z)
    (m m' : Stand.machine) (r : Stand.regs) :
  Stand.angle m' = Stand.angle m ->
  Stand.angle (Stand.power_on r) = 0
  /\ Stand.angle (snd (Stand.setup (Stand.power_on r))) = 0
  /\ Stand.loop pots m
     = (tt,
        Stand.mkMachine
          (u16 (Stand.angle m + Z.shiftl (Stand.speed_sample pots) 2))
          (loop_regs pots (Stand.io m))
          ((Stand.PB0,
            Stand.pulse_width (Stand.angle m) (Stand.offset_sample pots)
              (Stand.amplitude_sample pots))
             :: Stand.pulses m))
  /\ Stand.angle (snd (Stand.loop pots m'))
     = Stand.angle (snd (Stand.loop pots m))
  /\ hd_error (Stand.pulses (snd (Stand.loop pots m')))
     = hd_error (Stand.pulses (snd (Stand.loop pots m)))
  /\ (let r1 := Stand.io (snd (Stand.loop pots m)) in
      let r2 := Stand.io (snd (Stand.loop pots' (snd (Stand.loop pots m)))) in
      Stand.DDRB r2 = Stand.DDRB r1 /\ Stand.PORTB r2 = Stand.PORTB r1
      /\ Stand.ADMUX r2 = Stand.ADMUX r1 /\ Stand.ADCSRA r2 = Stand.ADCSRA r1).
Proof.
  intros Hsame. split; [reflexivity|]. split; [reflexivity|]. split; [|split].
  - pose proof (angle_after_loop pots m) as Hang.
    rewrite loop_effect in Hang |- *. cbn [snd Stand.angle] in Hang.
    now rewrite Hang.
  - rewrite !loop_effect. cbn [snd Stand.angle]. now rewrite Hsame.
  - split.
    + rewrite !loop_effect. cbn [snd Stand.pulses hd_error].
      now rewrite Hsame.
    + rewrite !loop_effect. cbn [snd Stand.io].
      apply control_registers_settle.
Qed.

Lemma angle_is_the_only_carried_state_witness :
  let pots := fixed_pots 100 1023 1023 in
  let m := Stand.mkMachine 49152 zero_regs [] in
  let m' := Stand.mkMachine 49152 (Stand.mkRegs 1 1 255 255 77)
              [(Stand.PB0, 1500)] in
  Stand.angle (snd (Stand.loop pots m'))
  = Stand.angle (snd (Stand.loop pots m))
  /\ hd_error (Stand.pulses (snd (Stand.loop pots m')))
     = hd_error (Stand.pulses (snd (Stand.loop pots m))).
Proof.
  intros pots m m'.
  destruct (angle_is_the_only_carried_state pots pots m m' zero_regs eq_refl)
    as (_ & _ & _ & Hangle & Hpulse & _).
  split; assumption.
Defined.

End Phase.

(** * Further properties of the code *)

(** ** The shape of the square and of the sine (stand.c) *)

Section SineShape.

Local Open Scope bool_scope.

(** Reading a boolean test as the proposition it decides. *)
Ltac to_prop H :=
  repeat (progress rewrite ?andb_true_iff, ?orb_true_iff, ?negb_true_iff,
            ?Z.eqb_eq, ?Z.leb_le, ?Z.ltb_lt, ?Z.leb_gt, ?Z.ltb_ge in H).

Lemma sq8_closed_form x :
  is_s8 x ->
  Stand.sq8 x = 255 - (Spec.centered x * Spec.centered x) / 128.
Proof.
  intros Hx. pose proof (check_all_s8 _ sq8_closed_form_all x Hx) as H.
  cbv beta in H. apply andb_true_iff in H as [H _]. now apply Z.eqb_eq.
Qed.

Lemma centered_range x : is_s8 x -> -128 <= Spec.centered x <= 127.
Proof.
  unfold is_s8, Spec.centered. intros Hx.
  destruct (x <? 0) eqn:E; [apply Z.ltb_lt in E | apply Z.ltb_ge in E]; lia.
Qed.

Lemma centered_neg_all :
  forallb (fun x => (x =? 0) || (x =? -128)
                    || (Spec.centered (s8 (- x)) =? - Spec.centered x))
          all_s8 = true.
Proof. vm_compute. reflexivity. Qed.

(** X1: [sq8] is a downward parabola in the signed operand
    [s = centered x]: it stays between 127 and 255, the farther [s] is from
    zero the smaller the result, and [sq8 (-x) = sq8 x]. *)
Theorem sq8_is_an_even_parabola (x y : Z) :
  is_s8 x -> is_s8 y ->
  127 <= Stand.sq8 x <= 255
  /\ (Z.abs (Spec.centered x) <= Z.abs (Spec.centered y) ->
      Stand.sq8 y <= Stand.sq8 x)
  /\ Stand.sq8 (s8 (- x)) = Stand.sq8 x.
Proof.
  intros Hx Hy.
  pose proof (centered_range x Hx) as Hcx.
  pose proof (centered_range y Hy) as Hcy.
  rewrite (sq8_closed_form x Hx), (sq8_closed_form y Hy).
  assert (Hsq : forall s, -128 <= s <= 127 -> 0 <= s * s / 128 <= 128).
  { intros s Hs. split; [apply Z.div_pos; nia|].
    apply Z.div_le_upper_bound; nia. }
  pose proof (Hsq _ Hcx) as Hqx. split; [lia|]. split.
  - intros Habs.
    enough (Spec.centered x * Spec.centered x / 128
            <= Spec.centered y * Spec.centered y / 128) by lia.
    apply Z.div_le_mono; [lia|]. nia.
  - rewrite (sq8_closed_form (s8 (- x))) by apply s8_range.
    pose proof (check_all_s8 _ centered_neg_all x Hx) as H.
    cbv beta in H. to_prop H. destruct H as [[-> | ->] | H].
    + reflexivity.
    + reflexivity.
    + rewrite H. f_equal. f_equal. lia.
Qed.

Lemma sq8_is_an_even_parabola_witness :
  127 <= Stand.sq8 (-100) <= 255
  /\ Stand.sq8 5 <= Stand.sq8 (-100)
  /\ Stand.sq8 (s8 (- -100)) = Stand.sq8 (-100).
Proof.
  destruct (sq8_is_an_even_parabola (-100) 5) as (Hr & Hmono & Heven);
    try (unfold is_s8; lia).
  split; [exact Hr|]. split; [|exact Heven].
  apply Hmono. unfold Spec.centered. simpl. lia.
Defined.

Lemma sin8_closed_form_all :
  forallb (fun a =>
             if a <? 128
             then Stand.sin8 a =? 127 - (2 * a - 128) * (2 * a - 128) / 128
             else Stand.sin8 a =? (2 * a - 384) * (2 * a - 384) / 128 - 128)
          all_u8 = true.
Proof. vm_compute. reflexivity. Qed.

(** X2: [sin8] in closed form: two parabolas.  On the first half-period
    [sin8 a = 127 - (2a - 128)^2 / 128], on the second
    [sin8 a = (2a - 384)^2 / 128 - 128], with the division rounding down. *)
Theorem sin8_two_parabolas (a : Z) :
  is_u8 a ->
  (a < 128 -> Stand.sin8 a = 127 - (2 * a - 128) * (2 * a - 128) / 128)
  /\ (128 <= a ->
      Stand.sin8 a = (2 * a - 384) * (2 * a - 384) / 128 - 128).
Proof.
  intros Ha. pose proof (check_all_u8 _ sin8_closed_form_all a Ha) as H.
  cbv beta in H. split; intros Hhalf.
  - apply Z.ltb_lt in Hhalf. rewrite Hhalf in H. now apply Z.eqb_eq.
  - apply Z.ltb_ge in Hhalf. rewrite Hhalf in H. now apply Z.eqb_eq.
Qed.

Lemma sin8_two_parabolas_witness :
  Stand.sin8 30 = 127 - (2 * 30 - 128) * (2 * 30 - 128) / 128
  /\ Stand.sin8 200 = (2 * 200 - 384) * (2 * 200 - 384) / 128 - 128.
Proof.
  split.
  - apply (sin8_two_parabolas 30); unfold is_u8; lia.
  - apply (sin8_two_parabolas 200); unfold is_u8; lia.
Defined.

Lemma sin8_sign_all :
  forallb (fun a =>
             (if a =? 0 then Stand.sin8 a =? -1 else true)
             && (if (1 <=? a) && (a <=? 127)
                 then (1 <=? Stand.sin8 a) && (Stand.sin8 a <=? 127)
                 else true)
             && (if a =? 128 then Stand.sin8 a =? 0 else true)
             && (if 129 <=? a
                 then (-128 <=? Stand.sin8 a) && (Stand.sin8 a <=? -1)
                 else true))
          all_u8 = true.
Proof. vm_compute. reflexivity. Qed.

(** X3: the sign of [sin8]: positive on the phases 1..127, zero at 128
    only, negative on 129..255; at phase 0 it is -1, not 0. *)
Theorem sin8_sign (a : Z) :
  is_u8 a ->
  (a = 0 -> Stand.sin8 a = -1)
  /\ (1 <= a <= 127 -> 1 <= Stand.sin8 a <= 127)
  /\ (129 <= a -> -128 <= Stand.sin8 a <= -1)
  /\ (Stand.sin8 a = 0 <-> a = 128).
Proof.
  intros Ha. pose proof (check_all_u8 _ sin8_sign_all a Ha) as H.
  cbv beta in H. unfold is_u8 in Ha.
  apply andb_true_iff in H as [H H129].
  apply andb_true_iff in H as [H H128].
  apply andb_true_iff in H as [H0 H1].
  assert (Hzero : a = 0 -> Stand.sin8 a = -1).
  { intros Ea. apply Z.eqb_eq in Ea. rewrite Ea in H0. now apply Z.eqb_eq. }
  assert (Hpos : 1 <= a <= 127 -> 1 <= Stand.sin8 a <= 127).
  { intros [Hlo Hhi]. apply Z.leb_le in Hlo, Hhi. rewrite Hlo, Hhi in H1.
    cbn [andb] in H1. to_prop H1. lia. }
  assert (Hneg : 129 <= a -> -128 <= Stand.sin8 a <= -1).
  { intros Hlo. apply Z.leb_le in Hlo. rewrite Hlo in H129.
    to_prop H129. lia. }
  split; [exact Hzero|]. split; [exact Hpos|]. split; [exact Hneg|]. split.
  - intros Hz.
    destruct (Z.eq_dec a 0) as [Ea|Hn0]; [specialize (Hzero Ea); lia|].
    destruct (Z_le_gt_dec a 127); [specialize (Hpos ltac:(lia)); lia|].
    destruct (Z.eq_dec a 128); [assumption|].
    specialize (Hneg ltac:(lia)). lia.
  - intros ->. reflexivity.
Qed.

Lemma sin8_sign_witness :
  Stand.sin8 0 = -1
  /\ 1 <= Stand.sin8 100 <= 127 /\ -128 <= Stand.sin8 130 <= -1.
Proof.
  split; [|split].
  - apply (sin8_sign 0); [unfold is_u8; lia | reflexivity].
  - apply (sin8_sign 100); unfold is_u8; lia.
  - apply (sin8_sign 130); unfold is_u8; lia.
Defined.

Lemma sin8_mirror_all :
  forallb (fun d =>
             negb (d <=? 63)
             || ((Stand.sin8 (64 + d) =? Stand.sin8 (64 - d))
                 && (Stand.sin8 (192 + d) =? Stand.sin8 (192 - d))))
          all_u8 = true.
Proof. vm_compute. reflexivity. Qed.

(** X4: each half-wave is symmetric about its peak: for [d] in 0..63,
    [sin8 (64 + d) = sin8 (64 - d)] and [sin8 (192 + d) = sin8 (192 - d)]. *)
Theorem sin8_mirror (d : Z) :
  0 <= d <= 63 ->
  Stand.sin8 (64 + d) = Stand.sin8 (64 - d)
  /\ Stand.sin8 (192 + d) = Stand.sin8 (192 - d).
Proof.
  intros Hd.
  pose proof (check_all_u8 _ sin8_mirror_all d ltac:(unfold is_u8; lia)) as H.
  cbv beta in H. to_prop H. destruct H as [H|H]; [lia|exact H].
Qed.

Lemma sin8_mirror_witness :
  Stand.sin8 (64 + 20) = Stand.sin8 (64 - 20)
  /\ Stand.sin8 (192 + 20) = Stand.sin8 (192 - 20).
Proof. apply (sin8_mirror 20). lia. Defined.

Lemma sin8_monotone_all :
  forallb (fun a =>
             if (64 <=? a) && (a <=? 191)
             then Stand.sin8 (u8 (a + 1)) <=? Stand.sin8 a
             else Stand.sin8 a <=? Stand.sin8 (u8 (a + 1)))
          all_u8 = true.
Proof. vm_compute. reflexivity. Qed.

(** X5: [sin8] turns only at the two peaks: stepping the phase by one
    (255 steps to 0) never lowers the value from phase 192 through 255 and
    0 to 63, and never raises it from phase 64 to 191. *)
Theorem sin8_monotone_between_peaks (a : Z) :
  is_u8 a ->
  (64 <= a <= 191 -> Stand.sin8 (u8 (a + 1)) <= Stand.sin8 a)
  /\ (a <= 63 \/ 192 <= a -> Stand.sin8 a <= Stand.sin8 (u8 (a + 1))).
Proof.
  intros Ha. pose proof (check_all_u8 _ sin8_monotone_all a Ha) as H.
  cbv beta in H. split.
  - intros [Hlo Hhi]. apply Z.leb_le in Hlo, Hhi. rewrite Hlo, Hhi in H.
    cbn [andb] in H. now apply Z.leb_le.
  - intros Hout.
    assert (E : (64 <=? a) && (a <=? 191) = false).
    { apply andb_false_iff. destruct Hout as [Hout|Hout];
        [left; apply Z.leb_gt | right; apply Z.leb_gt]; lia. }
    rewrite E in H. now apply Z.leb_le.
Qed.

Lemma sin8_monotone_between_peaks_witness :
  Stand.sin8 (u8 (100 + 1)) <= Stand.sin8 100
  /\ Stand.sin8 255 <= Stand.sin8 (u8 (255 + 1)).
Proof.
  split.
  - apply (sin8_monotone_between_peaks 100); unfold is_u8; lia.
  - apply (sin8_monotone_between_peaks 255); unfold is_u8; lia.
Defined.

Lemma sin8_step_all :
  forallb (fun a =>
             (-4 <=? Stand.sin8 (u8 (a + 1)) - Stand.sin8 a)
             && (Stand.sin8 (u8 (a + 1)) - Stand.sin8 a <=? 4))
          all_u8 = true.
Proof. vm_compute. reflexivity. Qed.

(** X6: the sine has no jump: between one phase and the next, also from
    255 back to 0, [sin8] changes by at most 4. *)
Theorem sin8_has_no_jump (a : Z) :
  is_u8 a -> Z.abs (Stand.sin8 (u8 (a + 1)) - Stand.sin8 a) <= 4.
Proof.
  intros Ha. pose proof (check_all_u8 _ sin8_step_all a Ha) as H.
  cbv beta in H. to_prop H. lia.
Qed.

Lemma sin8_has_no_jump_witness :
  Z.abs (Stand.sin8 (u8 (255 + 1)) - Stand.sin8 255) <= 4.
Proof. apply (sin8_has_no_jump 255). unfold is_u8. lia. Defined.

End SineShape.

(** ** The experiment against the firmware (experiments/sin11.c) *)

Section ExperimentShape.

Local Open Scope bool_scope.

(** X7: the experiment computes what the firmware computes, although [int]
    is wider on the host: [sq8_imul] is [sq8] on every signed byte and the
    two [sin8] agree on every angle. *)
Theorem experiment_matches_firmware (x a : Z) :
  is_s8 x ->
  Sin11.sq8_imul x = Stand.sq8 x /\ Sin11.sin8 a = Stand.sin8 a.
Proof.
  intros Hx. split.
  - now apply sq8_imul_is_sq8.
  - apply sin8_experiment_is_firmware.
Qed.

Lemma experiment_matches_firmware_witness :
  Sin11.sq8_imul (-77) = Stand.sq8 (-77) /\ Sin11.sin8 77 = Stand.sin8 77.
Proof. apply (experiment_matches_firmware (-77) 77). unfold is_s8. lia. Defined.

Lemma sinu8_shape_all :
  forallb (fun a =>
             (Sin11.sinu8 (u8 (a + 128)) =? 255 - Sin11.sinu8 a)
             && (if a <? 128
                 then (127 <=? Sin11.sinu8 a) && (Sin11.sinu8 a <=? 255)
                 else (0 <=? Sin11.sinu8 a) && (Sin11.sinu8 a <=? 128)))
          all_u8 = true.
Proof. vm_compute. reflexivity. Qed.

(** X8: the 128-centered sine: half a period later it is the complement
    [255 - sinu8 a]; it stays in 127..255 on the first half-period and in
    0..128 on the second. *)
Theorem sinu8_half_periods (a : Z) :
  is_u8 a ->
  Sin11.sinu8 (u8 (a + 128)) = 255 - Sin11.sinu8 a
  /\ (a < 128 -> 127 <= Sin11.sinu8 a <= 255)
  /\ (128 <= a -> 0 <= Sin11.sinu8 a <= 128).
Proof.
  intros Ha. pose proof (check_all_u8 _ sinu8_shape_all a Ha) as H.
  cbv beta in H. apply andb_true_iff in H as [Hc Hr].
  apply Z.eqb_eq in Hc. split; [exact Hc|]. split; intros Hhalf.
  - apply Z.ltb_lt in Hhalf. rewrite Hhalf in Hr.
    apply andb_true_iff in Hr as [H1 H2]. apply Z.leb_le in H1, H2. lia.
  - apply Z.ltb_ge in Hhalf. rewrite Hhalf in Hr.
    apply andb_true_iff in Hr as [H1 H2]. apply Z.leb_le in H1, H2. lia.
Qed.

Lemma sinu8_half_periods_witness :
  Sin11.sinu8 (u8 (10 + 128)) = 255 - Sin11.sinu8 10
  /\ 127 <= Sin11.sinu8 10 <= 255.
Proof.
  destruct (sinu8_half_periods 10) as (Hc & Hfirst & _);
    [unfold is_u8; lia|].
  split; [exact Hc | apply Hfirst; lia].
Defined.

Lemma sq8_bit_upper_half_closed_all :
  forallb (fun x =>
             (x <? 128)
             || ((Sin11.sq8_bit x =? 128 + x * (255 - x) / 128)
                 && forallb (fun n => BitLoop.carry_after n x =? 0)
                      [0; 1; 2; 3; 4; 5; 6; 7; 8]%nat))
          all_u8 = true.
Proof. vm_compute. reflexivity. Qed.

(** X9: on the bytes with the top bit set the shift-and-add loop of
    [sq8_bit] is exact: no addition carries (the flag is 0 after every
    turn) and the result is [128 + x * (255 - x) / 128], rounded down. *)
Theorem sq8_bit_upper_half_exact (x : Z) (n : nat) :
  128 <= x <= 255 -> (n <= 8)%nat ->
  Sin11.sq8_bit x = 128 + x * (255 - x) / 128
  /\ BitLoop.carry_after n x = 0.
Proof.
  intros Hx Hn.
  pose proof (check_all_u8 _ sq8_bit_upper_half_closed_all x
                ltac:(unfold is_u8; lia)) as H.
  cbv beta in H. apply orb_true_iff in H as [H|H].
  - apply Z.ltb_lt in H. lia.
  - apply andb_true_iff in H as [Hv Hc]. apply Z.eqb_eq in Hv.
    split; [exact Hv|].
    rewrite forallb_forall in Hc. apply Z.eqb_eq, Hc.
    do 9 (destruct n as [|n]; [simpl; tauto|]). lia.
Qed.

Lemma sq8_bit_upper_half_exact_witness :
  Sin11.sq8_bit 200 = 128 + 200 * (255 - 200) / 128
  /\ BitLoop.carry_after 5 200 = 0.
Proof. apply (sq8_bit_upper_half_exact 200 5); lia. Defined.

End ExperimentShape.

(** ** The busy loops and their duration (stand.c) *)

Section BusyLoops.

Lemma u32_id z : 0 <= z < 4294967296 -> Timed.u32 z = z.
Proof.
  intros Hz. unfold Timed.u32, to_unsigned. change (2 ^ 32) with 4294967296.
  now apply Z.mod_small.
Qed.

(** A counter that starts at [c >= 1] lets the body run [c - 1] times. *)
Lemma busy_wait_counts (n : nat) :
  forall c t, 1 <= c <= Z.of_nat n -> c <= 65535 ->
              Timed.busy_wait n c t = Some (t + c - 1).
Proof.
  induction n as [|n IH]; intros c t Hc Hmax; [lia|].
  cbn [Timed.busy_wait]. rewrite (u16_id (c - 1)) by (unfold is_u16; lia).
  unfold truthy. destruct (Z.eqb_spec (c - 1) 0) as [E|E]; cbn [negb].
  - f_equal. lia.
  - rewrite IH by lia. f_equal. lia.
Qed.

Lemma busy_wait_with_fuel (n : nat) c :
  is_u16 c -> 65536 <= Z.of_nat n ->
  Timed.busy_wait n c 0 = Some (if c =? 0 then 65535 else c - 1).
Proof.
  unfold is_u16. intros Hc Hn. destruct n as [|n]; [lia|].
  destruct (Z.eqb_spec c 0) as [->|Hne].
  - cbn [Timed.busy_wait]. change (u16 (0 - 1)) with 65535.
    change (truthy 65535) with true. cbv iota.
    rewrite busy_wait_counts by lia. reflexivity.
  - rewrite busy_wait_counts by lia. f_equal.
Qed.

Lemma busy_wait_ends c :
  is_u16 c ->
  Timed.busy_wait Timed.enough_fuel c 0
  = Some (if c =? 0 then 65535 else c - 1).
Proof.
  intros Hc. apply busy_wait_with_fuel; [exact Hc|].
  unfold Timed.enough_fuel. rewrite Z2Nat.id; lia.
Qed.

(** X10: a busy loop [while (--us)] always ends.  Started with a counter
    [c >= 1] its body runs [c - 1] times; started with 0 the counter wraps
    and the body runs 65535 times, the longest wait there is. *)
Theorem busy_loop_always_ends (c : Z) :
  is_u16 c ->
  exists n,
    Timed.busy_wait Timed.enough_fuel c 0 = Some n
    /\ 0 <= n <= 65535
    /\ (1 <= c -> n = c - 1)
    /\ (c = 0 -> n = 65535).
Proof.
  intros Hc. exists (if c =? 0 then 65535 else c - 1).
  split; [now apply busy_wait_ends|]. unfold is_u16 in Hc.
  destruct (Z.eqb_spec c 0) as [->|Hne]; repeat split; lia.
Qed.

Lemma busy_loop_always_ends_witness :
  exists n,
    Timed.busy_wait Timed.enough_fuel 0 0 = Some n
    /\ 0 <= n <= 65535
    /\ (1 <= 0 -> n = 0 - 1)
    /\ (0 = 0 -> n = 65535).
Proof. apply (busy_loop_always_ends 0). unfold is_u16. lia. Defined.

Variable F_CPU : Z.

Hypothesis F_CPU_is_long : 0 < F_CPU < 2147483648.

Lemma clock_factor_range : 0 <= (F_CPU / 100000) <= 21474.
Proof.
  split; [apply Z.div_pos; lia|].
  enough (F_CPU / 100000 < 21475) by lia.
  apply Z.div_lt_upper_bound; lia.
Qed.

(** The 32-bit steps of [us2loops] never wrap; only the cut to 16 bits
    can. *)
Lemma us2loops_value us :
  is_u16 us -> Timed.us2loops F_CPU us = u16 (us * (F_CPU / 100000) / 50 + 1).
Proof.
  unfold is_u16. intros Hus. pose proof clock_factor_range as HK.
  unfold Timed.us2loops.
  assert (Hprod : 0 <= us * (F_CPU / 100000) <= 1407298590) by nia.
  assert (Hquot : 0 <= us * (F_CPU / 100000) / 50 <= 1407298590).
  { split; [apply Z.div_pos; lia|].
    apply Z.div_le_upper_bound; lia. }
  rewrite (u32_id us) by lia. rewrite (u32_id (F_CPU / 100000)) by lia.
  rewrite (u32_id (us * (F_CPU / 100000))) by lia.
  rewrite (u32_id (us * (F_CPU / 100000) / 50 + 1)) by lia.
  reflexivity.
Qed.

Lemma us2loops_range us : is_u16 (Timed.us2loops F_CPU us).
Proof. unfold Timed.us2loops. apply u16_range. Qed.

(** X11: [delay_us] waits the time it is asked for, to within one turn of
    its loop, as long as the count fits 16 bits: when
    [us * k / 50 < 65535], with [k = F_CPU / 100000], the body runs
    [n = us * k / 50] times, so [50 * n <= us * k < 50 * (n + 1)], and the
    machine is left as it was. *)
Theorem delay_us_is_accurate (us : Z) (s : Timed.clocked) :
  is_u16 us -> us * (F_CPU / 100000) / 50 < 65535 ->
  exists n,
    Timed.delay_us F_CPU us s
    = Some (tt, Timed.mkClocked (Timed.spins s + n) (Timed.mach s))
    /\ n = us * (F_CPU / 100000) / 50
    /\ 50 * n <= us * (F_CPU / 100000) < 50 * (n + 1).
Proof.
  intros Hus Hfit. exists (us * (F_CPU / 100000) / 50).
  pose proof clock_factor_range as HK. unfold is_u16 in Hus.
  assert (Hq : 0 <= us * (F_CPU / 100000) / 50) by (apply Z.div_pos; nia).
  split; [|split; [reflexivity|]].
  - unfold Timed.delay_us, Timed.spin. cbv zeta.
    rewrite us2loops_value by (unfold is_u16; lia).
    rewrite (u16_id (us * (F_CPU / 100000) / 50 + 1)) by (unfold is_u16; lia).
    rewrite busy_wait_ends by (unfold is_u16; lia).
    destruct (Z.eqb_spec (us * (F_CPU / 100000) / 50 + 1) 0) as [E|E]; [lia|].
    do 3 f_equal. lia.
  - pose proof (Z.div_mod (us * (F_CPU / 100000)) 50 ltac:(lia)).
    pose proof (Z.mod_pos_bound (us * (F_CPU / 100000)) 50 ltac:(lia)). lia.
Qed.

End BusyLoops.

Lemma delay_us_is_accurate_witness :
  exists n,
    Timed.delay_us 9600000 6000
      (Timed.mkClocked 0 (Stand.power_on zero_regs))
    = Some (tt, Timed.mkClocked (0 + n) (Stand.power_on zero_regs))
    /\ n = 6000 * (9600000 / 100000) / 50
    /\ 50 * n <= 6000 * (9600000 / 100000) < 50 * (n + 1).
Proof.
  apply (delay_us_is_accurate 9600000 ltac:(lia) 6000
           (Timed.mkClocked 0 (Stand.power_on zero_regs))).
  - unfold is_u16. lia.
  - vm_compute. reflexivity.
Defined.

(** ** The limits of [us2loops] at the two documented clock rates *)

Section ClockRates.

Lemma u16_wrapped_once v : 65536 <= v < 131072 -> u16 v = v - 65536.
Proof.
  intros Hv. unfold u16, to_unsigned. change (2 ^ 16) with 65536.
  symmetry. apply Z.mod_unique with (q := 1); lia.
Qed.

(** X12: at 8 MHz [us2loops] is exact ([us * 80 / 50 + 1]) up to 40959
    microseconds, at 9.6 MHz ([us * 96 / 50 + 1]) up to 34132; for a longer
    wait the 16-bit result has lost 65536, so the wait comes out shorter
    than the one asked for. *)
Theorem us2loops_limits (us : Z) :
  is_u16 us ->
  (us <= 40959 -> Timed.us2loops 8000000 us = us * 80 / 50 + 1)
  /\ (40960 <= us ->
      Timed.us2loops 8000000 us = us * 80 / 50 + 1 - 65536)
  /\ (us <= 34132 -> Timed.us2loops 9600000 us = us * 96 / 50 + 1)
  /\ (34133 <= us ->
      Timed.us2loops 9600000 us = us * 96 / 50 + 1 - 65536).
Proof.
  unfold is_u16. intros Hus.
  rewrite (us2loops_value 8000000) by (unfold is_u16; lia).
  rewrite (us2loops_value 9600000) by (unfold is_u16; lia).
  change (8000000 / 100000) with 80. change (9600000 / 100000) with 96.
  assert (H80 : 0 <= us * 80 / 50 <= 104856).
  { split; [apply Z.div_pos; lia|].
    enough (us * 80 / 50 < 104857) by lia. apply Z.div_lt_upper_bound; lia. }
  assert (H96 : 0 <= us * 96 / 50 <= 125827).
  { split; [apply Z.div_pos; lia|].
    enough (us * 96 / 50 < 125828) by lia. apply Z.div_lt_upper_bound; lia. }
  repeat split; intros Hlim.
  - apply u16_id. unfold is_u16.
    enough (us * 80 / 50 < 65535) by lia. apply Z.div_lt_upper_bound; lia.
  - apply u16_wrapped_once.
    enough (65535 <= us * 80 / 50) by lia. apply Z.div_le_lower_bound; lia.
  - apply u16_id. unfold is_u16.
    enough (us * 96 / 50 < 65535) by lia. apply Z.div_lt_upper_bound; lia.
  - apply u16_wrapped_once.
    enough (65535 <= us * 96 / 50) by lia. apply Z.div_le_lower_bound; lia.
Qed.

Lemma us2loops_limits_witness :
  Timed.us2loops 8000000 6000 = 6000 * 80 / 50 + 1
  /\ Timed.us2loops 9600000 34133 = 34133 * 96 / 50 + 1 - 65536.
Proof.
  split.
  - apply (us2loops_limits 6000); unfold is_u16; lia.
  - apply (us2loops_limits 34133); unfold is_u16; lia.
Defined.

End ClockRates.

(** ** One turn of [loop] on the clocked machine *)

Section TimedLoop.

Variable F_CPU : Z.
Variable pots : Z -> Z.

Lemma stand_bind_eq {A B : Type} (c : Stand.M A) (k : A -> Stand.M B) m :
  Stand.bind c k m = k (fst (c m)) (snd (c m)).
Proof. unfold Stand.bind. destruct (c m). reflexivity. Qed.

Lemma lift_bind {A B : Type} (c : Stand.M A) (k : A -> Timed.T B) s :
  Timed.bind (Timed.lift c) k s
  = k (fst (c (Timed.mach s)))
      (Timed.mkClocked (Timed.spins s) (snd (c (Timed.mach s)))).
Proof.
  unfold Timed.bind, Timed.lift. destruct (c (Timed.mach s)). reflexivity.
Qed.

Lemma spin_ends count s :
  is_u16 count ->
  Timed.spin count s
  = Some (tt, Timed.mkClocked (Timed.spins s + Timed.spin_turns count)
                (Timed.mach s)).
Proof.
  intros Hc. unfold Timed.spin, Timed.spin_turns.
  now rewrite busy_wait_ends by exact Hc.
Qed.

Lemma spin_bind {B : Type} count (k : unit -> Timed.T B) s :
  is_u16 count ->
  Timed.bind (Timed.spin count) k s
  = k tt (Timed.mkClocked (Timed.spins s + Timed.spin_turns count)
            (Timed.mach s)).
Proof. intros Hc. unfold Timed.bind. now rewrite spin_ends by exact Hc. Qed.

Lemma delay_bind {B : Type} us (k : unit -> Timed.T B) s :
  Timed.bind (Timed.delay_us F_CPU us) k s
  = k tt (Timed.mkClocked
            (Timed.spins s + Timed.spin_turns (Timed.us2loops F_CPU us))
            (Timed.mach s)).
Proof.
  unfold Timed.delay_us. cbv zeta. apply spin_bind, us2loops_range.
Qed.

(** What a 10-bit and an 8-bit sample return, as a value and a machine. *)
Lemma sample10_result ch m :
  ch = 1 \/ ch = 2 ->
  Stand.read_adc pots
    (snd (Stand.start_adc (snd (Stand.set_adc_channel ch m))))
  = (pots ch mod 1024,
     Stand.mkMachine (Stand.angle m) (adc_regs pots ch false (Stand.io m))
       (Stand.pulses m)).
Proof.
  intros Hch.
  pose proof (sample10_step pots ch 0 (fun p => Stand.ret p) m Hch) as H.
  rewrite !stand_bind_eq in H. unfold Stand.ret at 2 in H.
  cbn [Stand.delay_us Stand.ret fst snd] in H.
  rewrite <- H. apply surjective_pairing.
Qed.

Lemma sample8_result m :
  Stand.read_adch pots
    (snd (Stand.start_adc (snd (Stand.set_adc_channel 3 m))))
  = (Z.shiftr (pots 3 mod 1024) 2,
     Stand.mkMachine (Stand.angle m) (adc_regs pots 3 true (Stand.io m))
       (Stand.pulses m)).
Proof.
  pose proof (sample8_step pots 0 (fun p => Stand.ret p) m) as H.
  rewrite !stand_bind_eq in H. unfold Stand.ret at 2 in H.
  cbn [Stand.delay_us Stand.ret fst snd] in H.
  rewrite <- H. apply surjective_pairing.
Qed.

End TimedLoop.

Section TimedLoopEffect.

Variable F_CPU : Z.
Variable pots : Z -> Z.

Ltac timed_step :=
  first [ rewrite lift_bind | rewrite delay_bind ];
  cbv beta; cbn [Timed.mach Timed.spins].

(** One turn of the clocked [loop]: it ends, it leaves the machine as the
    clockless [loop] does, and it spins three waits and one pulse. *)
Lemma timed_loop_effect s :
  Timed.loop F_CPU pots s
  = Some (tt,
          Timed.mkClocked
            (Timed.spins s
             + 3 * Timed.spin_turns (Timed.us2loops F_CPU 6000)
             + Timed.spin_turns
                 (Timed.us2loops F_CPU
                    (Stand.pulse_width (Stand.angle (Timed.mach s))
                       (Stand.offset_sample pots)
                       (Stand.amplitude_sample pots))))
            (snd (Stand.loop pots (Timed.mach s)))).
Proof.
  unfold Timed.loop. cbv zeta.
  do 4 timed_step.
  rewrite sample10_result by (left; reflexivity). cbn [fst snd].
  do 4 timed_step.
  rewrite sample10_result by (right; reflexivity). cbn [fst snd].
  do 4 timed_step.
  rewrite sample8_result. cbn [fst snd].
  do 3 timed_step.
  unfold Timed.send_pulse. cbv zeta.
  do 2 timed_step.
  rewrite spin_bind by apply us2loops_range.
  unfold Timed.lift.
  rewrite loop_effect.
  cbn [Timed.mach Timed.spins fst snd Stand.get_angle Stand.put_angle
       Stand.put_io Stand.log_pulse Stand.angle Stand.io Stand.pulses].
  unfold Stand.offset_sample, Stand.amplitude_sample, Stand.speed_sample.
  do 3 f_equal. lia.
Qed.

End TimedLoopEffect.

Section LoopTiming.

Variable F_CPU : Z.
Variable pots : Z -> Z.

Lemma spin_turns_range c : is_u16 c -> 0 <= Timed.spin_turns c <= 65535.
Proof.
  unfold is_u16, Timed.spin_turns. intros Hc.
  destruct (Z.eqb_spec c 0); lia.
Qed.

(** X13: one turn of [loop] always ends, whatever [F_CPU] is: its four busy
    loops take at most 4 * 65535 turns together, and it leaves the machine
    exactly as the clockless [loop] does: the waiting changes nothing but
    the time. *)
Theorem loop_always_ends (s : Timed.clocked) :
  exists n,
    Timed.loop F_CPU pots s
    = Some (tt, Timed.mkClocked (Timed.spins s + n)
                  (snd (Stand.loop pots (Timed.mach s))))
    /\ 0 <= n <= 4 * 65535.
Proof.
  eexists. split.
  - rewrite timed_loop_effect. rewrite <- Z.add_assoc. reflexivity.
  - pose proof (spin_turns_range (Timed.us2loops F_CPU 6000)
                  (us2loops_range F_CPU 6000)).
    pose proof (spin_turns_range _
                  (us2loops_range F_CPU
                     (Stand.pulse_width (Stand.angle (Timed.mach s))
                        (Stand.offset_sample pots)
                        (Stand.amplitude_sample pots)))).
    lia.
Qed.

(** X14: the time of one turn.  With a clock of at most 9.6 MHz
    ([k = F_CPU / 100000] between 1 and 96) and samples that do not wrap
    the pulse width (amplitude <= offset + 238), the pulse width [pw] is at
    most 3028 and the turn spins [n] times with
    [50 * n <= k * (18000 + pw) < 50 * (n + 1)]: at 50 / k microseconds a
    spin, 18000 + pw microseconds to within one spin, between 18 and 21.03
    milliseconds. *)
Theorem loop_period (s : Timed.clocked) :
  0 < F_CPU -> 1 <= F_CPU / 100000 <= 96 ->
  is_u16 (Stand.angle (Timed.mach s)) ->
  Stand.amplitude_sample pots <= Stand.offset_sample pots + 238 ->
  exists n pw,
    Timed.loop F_CPU pots s
    = Some (tt, Timed.mkClocked (Timed.spins s + n)
                  (snd (Stand.loop pots (Timed.mach s))))
    /\ pw = Stand.pulse_width (Stand.angle (Timed.mach s))
              (Stand.offset_sample pots) (Stand.amplitude_sample pots)
    /\ 0 <= pw <= 3028
    /\ 50 * n <= F_CPU / 100000 * (18000 + pw) < 50 * (n + 1)
    /\ F_CPU / 100000 * 18000 <= 50 * n <= F_CPU / 100000 * 21028.
Proof.
  intros Hpos Hk Ha Hsafe.
  set (k := F_CPU / 100000) in *.
  assert (Hlong : 0 < F_CPU < 2147483648).
  { split; [lia|]. destruct (Z_lt_ge_dec F_CPU 2147483648) as [|Hbig]; [lia|].
    assert (21474 <= F_CPU / 100000) by (apply Z.div_le_lower_bound; lia).
    unfold k in Hk. lia. }
  set (pw := Stand.pulse_width (Stand.angle (Timed.mach s))
               (Stand.offset_sample pots) (Stand.amplitude_sample pots)).
  pose proof (offset_sample_range pots) as Hp1.
  pose proof (amplitude_sample_range pots) as Hp3.
  destruct (pulse_width_exact_mod (Stand.angle (Timed.mach s))
              (Stand.offset_sample pots) (Stand.amplitude_sample pots)
              Ha Hp1 Hp3) as (Hpw & Hlow & Hb).
  fold pw in Hpw.
  assert (Hrange : 0 <= pw <= 3028).
  { rewrite Hpw, u16_id; [lia | unfold is_u16; lia]. }
  assert (Hq : 0 <= pw * k / 50 <= 5813).
  { split; [apply Z.div_pos; nia|].
    enough (pw * k / 50 < 5814) by lia. apply Z.div_lt_upper_bound; nia. }
  assert (Hwait : Timed.spin_turns (Timed.us2loops F_CPU 6000) = 120 * k).
  { rewrite us2loops_value by (try exact Hlong; unfold is_u16; lia).
    fold k. replace (6000 * k) with (120 * k * 50) by lia.
    rewrite Z.div_mul by lia.
    rewrite u16_id by (unfold is_u16; lia).
    unfold Timed.spin_turns. destruct (Z.eqb_spec (120 * k + 1) 0); lia. }
  assert (Hpulse : Timed.spin_turns (Timed.us2loops F_CPU pw) = pw * k / 50).
  { rewrite us2loops_value by (try exact Hlong; unfold is_u16; lia).
    fold k. rewrite u16_id by (unfold is_u16; lia).
    unfold Timed.spin_turns. destruct (Z.eqb_spec (pw * k / 50 + 1) 0); lia. }
  exists (360 * k + pw * k / 50), pw.
  split.
  - rewrite timed_loop_effect. fold pw. rewrite Hwait, Hpulse.
    do 3 f_equal. lia.
  - split; [reflexivity|]. split; [exact Hrange|].
    pose proof (Z.div_mod (pw * k) 50 ltac:(lia)).
    pose proof (Z.mod_pos_bound (pw * k) 50 ltac:(lia)).
    split; nia.
Qed.

End LoopTiming.

Lemma loop_period_witness :
  exists n pw,
    Timed.loop 9600000 (fixed_pots 512 300 1023)
      (Timed.mkClocked 0 (Stand.power_on zero_regs))
    = Some (tt, Timed.mkClocked (0 + n)
                  (snd (Stand.loop (fixed_pots 512 300 1023)
                          (Stand.power_on zero_regs))))
    /\ pw = Stand.pulse_width 0 512 255
    /\ 0 <= pw <= 3028
    /\ 50 * n <= 9600000 / 100000 * (18000 + pw) < 50 * (n + 1)
    /\ 9600000 / 100000 * 18000 <= 50 * n <= 9600000 / 100000 * 21028.
Proof.
  apply (loop_period 9600000 (fixed_pots 512 300 1023)
           (Timed.mkClocked 0 (Stand.power_on zero_regs))).
  - lia.
  - vm_compute. split; discriminate.
  - unfold is_u16. simpl. lia.
  - vm_compute. discriminate.
Defined.

(** ** The test signal: [main] built with [TEST] *)

Section TestSignal.

Local Open Scope bool_scope.

Variable F_CPU : Z.
Hypothesis clock_positive : 0 < F_CPU.
Hypothesis clock_fits : F_CPU / 100000 <= 6553.

Lemma toggle_byte_all :
  forallb (fun p => (u8 (Z.lxor p 1) =? Z.lxor p 1)
                    && (u8 (Z.lxor (Z.lxor p 1) 1) =? p))
          all_u8 = true.
Proof. vm_compute. reflexivity. Qed.

Lemma toggle_byte p :
  is_u8 p -> u8 (Z.lxor p 1) = Z.lxor p 1 /\ u8 (Z.lxor (Z.lxor p 1) 1) = p.
Proof.
  intros Hp. pose proof (check_all_u8 _ toggle_byte_all p Hp) as H.
  cbv beta in H. apply andb_true_iff in H as [H1 H2].
  split; now apply Z.eqb_eq.
Qed.

(** A wait of 500 microseconds is a whole number of turns: ten for every
    100 kHz of the clock. *)
Lemma half_period_turns :
  Timed.spin_turns (Timed.us2loops F_CPU 500) = 10 * (F_CPU / 100000).
Proof.
  assert (Hlong : 0 < F_CPU < 2147483648).
  { split; [lia|].
    destruct (Z_lt_ge_dec F_CPU 2147483648) as [|Hbig]; [lia|].
    assert (21474 <= F_CPU / 100000) by (apply Z.div_le_lower_bound; lia).
    lia. }
  assert (0 <= F_CPU / 100000) by (apply Z.div_pos; lia).
  rewrite us2loops_value by (try exact Hlong; unfold is_u16; lia).
  replace (500 * (F_CPU / 100000)) with (10 * (F_CPU / 100000) * 50) by lia.
  rewrite Z.div_mul by lia. rewrite u16_id by (unfold is_u16; lia).
  unfold Timed.spin_turns.
  destruct (Z.eqb_spec (10 * (F_CPU / 100000) + 1) 0); lia.
Qed.

(** The state after [n] turns of the test loop. *)
Lemma test_turns_effect (n : nat) :
  forall sp a ddrb p admux adcsra adcw ps,
    is_u8 p ->
    Timed.test_turns F_CPU n
      (Timed.mkClocked sp
         (Stand.mkMachine a (Stand.mkRegs ddrb p admux adcsra adcw) ps))
    = Some (tt,
            Timed.mkClocked (sp + Z.of_nat n * (10 * (F_CPU / 100000)))
              (Stand.mkMachine a
                 (Stand.mkRegs ddrb
                    (if Nat.even n then p else Z.lxor p 1)
                    admux adcsra adcw)
                 ps)).
Proof.
  induction n as [|n IH]; intros sp a ddrb p admux adcsra adcw ps Hp.
  - cbn [Timed.test_turns Timed.ret Nat.even]. change (Z.of_nat 0) with 0.
    rewrite Z.mul_0_l, Z.add_0_r. reflexivity.
  - cbn [Timed.test_turns]. unfold Timed.bind at 1.
    rewrite IH by exact Hp.
    unfold Timed.test_turn. rewrite delay_bind, half_period_turns.
    unfold Timed.lift.
    cbn [Timed.mach Timed.spins Stand.put_io Stand.io Stand.angle
         Stand.pulses Stand.set_PORTB Stand.PORTB Stand.DDRB Stand.ADMUX
         Stand.ADCSRA Stand.ADCW].
    change (Stand._BV Stand.PB0) with 1.
    destruct (toggle_byte p Hp) as [Hup Hdown].
    rewrite Nat.even_succ, <- Nat.negb_even, Nat2Z.inj_succ.
    replace (sp + Z.succ (Z.of_nat n) * (10 * (F_CPU / 100000)))
      with (sp + Z.of_nat n * (10 * (F_CPU / 100000))
            + 10 * (F_CPU / 100000)) by lia.
    unfold Stand.set_PORTB.
    cbn [Stand.PORTB Stand.DDRB Stand.ADMUX Stand.ADCSRA Stand.ADCW].
    destruct (Nat.even n); cbn [negb].
    + now rewrite Hup.
    + now rewrite Hdown.
Qed.

(** X16: the test build toggles [PB0] and nothing else.  After [setup] and
    [n] turns, [PORTB] is what the reset left when [n] is even and that
    with bit 0 inverted when [n] is odd; every turn spins exactly
    [10 * (F_CPU / 100000)] times, that is 500 microseconds at 5 cycles a
    spin with no rounding, which makes the 1 kHz square wave. *)
Theorem test_signal_toggles_pb0 (n : nat) (sp a ddrb p admux adcsra adcw : Z)
    (ps : list (Z * Z)) :
  is_u8 p ->
  Timed.main_test F_CPU n
    (Timed.mkClocked sp
       (Stand.mkMachine a (Stand.mkRegs ddrb p admux adcsra adcw) ps))
  = Some (tt,
          Timed.mkClocked (sp + Z.of_nat n * (10 * (F_CPU / 100000)))
            (Stand.mkMachine a
               (Stand.mkRegs 1 (if Nat.even n then p else Z.lxor p 1)
                  0 131 adcw)
               ps))
  /\ Z.testbit (Z.lxor p 1) 0 = negb (Z.testbit p 0)
  /\ (forall b, 0 < b -> Z.testbit (Z.lxor p 1) b = Z.testbit p b).
Proof.
  intros Hp. split; [|split].
  - unfold Timed.main_test. rewrite lift_bind. cbv beta.
    cbn [Timed.mach Timed.spins snd Stand.setup].
    unfold Stand.setup. rewrite !stand_bind_eq.
    cbn [fst snd Stand.put_io Stand.io Stand.angle Stand.pulses
         Stand.set_DDRB Stand.set_ADCSRA Stand.set_ADMUX
         Stand.PORTB Stand.DDRB Stand.ADMUX Stand.ADCSRA Stand.ADCW].
    change (u8 (Stand._BV Stand.DDB0)) with 1.
    change (u8 (Z.lor (Stand._BV Stand.ADEN)
                  (Z.lor (Stand._BV Stand.ADPS1) (Stand._BV Stand.ADPS0))))
      with 131.
    change (u8 0) with 0.
    now apply test_turns_effect.
  - rewrite Z.lxor_spec. change (Z.testbit 1 0) with true.
    now rewrite xorb_true_r.
  - intros b Hb. rewrite Z.lxor_spec.
    replace (Z.testbit 1 b) with false; [now rewrite xorb_false_r|].
    symmetry. change 1 with (2 ^ 0). apply Z.pow2_bits_false. lia.
Qed.

End TestSignal.

Lemma test_signal_toggles_pb0_witness :
  Timed.main_test 8000000 3
    (Timed.mkClocked 0 (Stand.mkMachine 0 (Stand.mkRegs 0 6 9 9 0) []))
  = Some (tt,
          Timed.mkClocked (0 + Z.of_nat 3 * (10 * (8000000 / 100000)))
            (Stand.mkMachine 0
               (Stand.mkRegs 1 (if Nat.even 3 then 6 else Z.lxor 6 1)
                  0 131 0)
               [])).
Proof.
  apply (test_signal_toggles_pb0 8000000 ltac:(lia)
           ltac:(vm_compute; discriminate) 3 0 0 0 6 9 9 0 []).
  unfold is_u8. lia.
Defined.

(** ** The registers through [set_adc_channel], [setup] and [main] *)

(** Equality of two bytes built from [a] with masks, bit by bit. *)
Ltac byte_bit a i :=
  subst; generalize (Z.testbit a i); intros [|]; reflexivity.

Ltac byte_bits a :=
  let n := fresh "n" in
  let Hn := fresh "Hn" in
  let Hc := fresh "Hc" in
  apply Z.bits_inj'; intros n Hn;
  rewrite ?u8_land;
  repeat (first [rewrite Z.land_spec | rewrite Z.lor_spec]);
  destruct (Z_lt_le_dec n 8) as [Hc|Hc];
  [ assert (n = 0 \/ n = 1 \/ n = 2 \/ n = 3
            \/ n = 4 \/ n = 5 \/ n = 6 \/ n = 7) as
      [?|[?|[?|[?|[?|[?|[?|?]]]]]]] by lia;
    [ byte_bit a 0 | byte_bit a 1 | byte_bit a 2 | byte_bit a 3
    | byte_bit a 4 | byte_bit a 5 | byte_bit a 6 | byte_bit a 7 ]
  | rewrite (testbit_255_high n Hc), ?andb_false_r; reflexivity ].

Section Channels.

Lemma mux_other_bits a c :
  0 <= c <= 3 ->
  Z.land (u8 (Z.lor (Z.land a (Z.lnot 3)) c)) 252 = Z.land (u8 a) 252.
Proof.
  intros Hc. assert (Hcases : c = 0 \/ c = 1 \/ c = 2 \/ c = 3) by lia.
  destruct Hcases as [-> | [-> | [-> | ->]]]; byte_bits a.
Qed.

(** X17: [set_adc_channel] writes the two [MUX] bits and nothing else.  Its
    argument is a [uint8_t]: for a channel 0..3 the low two bits of [ADMUX]
    become the channel and the other six keep their value; for any other
    byte, 4..255, the machine is left as it was. *)
Theorem set_adc_channel_selects (ch : Z) (m : Stand.machine) :
  is_u8 ch ->
  is_u8 (Stand.ADMUX (Stand.io m)) ->
  (ch <= 3 ->
   exists admux,
     Stand.set_adc_channel ch m
     = (tt,
        Stand.mkMachine (Stand.angle m)
          (Stand.mkRegs (Stand.DDRB (Stand.io m)) (Stand.PORTB (Stand.io m))
             admux
             (Stand.ADCSRA (Stand.io m)) (Stand.ADCW (Stand.io m)))
          (Stand.pulses m))
     /\ Z.land admux 3 = ch
     /\ Z.land admux 252 = Z.land (Stand.ADMUX (Stand.io m)) 252
     /\ is_u8 admux)
  /\ (3 < ch -> Stand.set_adc_channel ch m = (tt, m)).
Proof.
  unfold is_u8 at 1. intros Hbyte Hreg. split.
  - intros Hch.
    exists (u8 (Z.lor (Z.land (Stand.ADMUX (Stand.io m)) (Z.lnot 3)) ch)).
    split; [|split; [|split]].
    + assert (Hcases : ch = 0 \/ ch = 1 \/ ch = 2 \/ ch = 3) by lia.
      destruct Hcases as [-> | [-> | [-> | ->]]]; reflexivity.
    + apply mux_after_select. lia.
    + rewrite mux_other_bits by lia. now rewrite u8_id.
    + apply u8_range.
  - intros Hout. destruct m as [a r ps].
    destruct ch as [|p|p]; [lia| |lia].
    destruct p as [[p|p|]|[p|p|]|]; try reflexivity; lia.
Qed.

Lemma set_adc_channel_selects_witness :
  (exists admux,
     Stand.set_adc_channel 2
       (Stand.mkMachine 0 (Stand.mkRegs 1 0 97 131 0) [])
     = (tt, Stand.mkMachine 0 (Stand.mkRegs 1 0 admux 131 0) [])
     /\ Z.land admux 3 = 2
     /\ Z.land admux 252 = Z.land 97 252
     /\ is_u8 admux)
  /\ Stand.set_adc_channel 200
       (Stand.mkMachine 0 (Stand.mkRegs 1 0 97 131 0) [])
     = (tt, Stand.mkMachine 0 (Stand.mkRegs 1 0 97 131 0) []).
Proof.
  split.
  - apply (set_adc_channel_selects 2
             (Stand.mkMachine 0 (Stand.mkRegs 1 0 97 131 0) []));
      try (unfold is_u8; simpl; lia); lia.
  - apply (set_adc_channel_selects 200
             (Stand.mkMachine 0 (Stand.mkRegs 1 0 97 131 0) []));
      try (unfold is_u8; simpl; lia); lia.
Defined.








End Channels.

(** ** The pulse width: swing and wrap *)

Section Swing.

Lemma exact_parts angle p1 p3 :
  Spec.pulse_width_exact angle p1 p3
  = 1500 + 2 * (p1 - 512)
    + Stand.sin8 (Z.shiftr angle 8) * p3 / 64.
Proof.
  unfold Spec.pulse_width_exact.
  rewrite Z.shiftl_mul_pow2, Z.shiftr_div_pow2 by lia.
  change (2 ^ 1) with 2. change (2 ^ 6) with 64. lia.
Qed.

(** X19: the amplitude sample bounds the swing.  For samples in range the
    pulse width stays within [2 * p3] microseconds of the centre the offset
    sets, [1500 + 2 * (p1 - 512)]; with the amplitude at 0 the pulse is
    that centre at every phase, a value between 476 and 2522. *)
Theorem amplitude_bounds_the_swing (angle p1 p3 : Z) :
  is_u16 angle -> 0 <= p1 <= 1023 -> 0 <= p3 <= 255 ->
  1500 + 2 * (p1 - 512) - 2 * p3
  <= Spec.pulse_width_exact angle p1 p3
  <= 1500 + 2 * (p1 - 512) + 2 * p3
  /\ (p3 = 0 ->
      Stand.pulse_width angle p1 p3 = 1500 + 2 * (p1 - 512)
      /\ 476 <= Stand.pulse_width angle p1 p3 <= 2522).
Proof.
  intros Ha Hp1 Hp3.
  pose proof (sin8_range (Z.shiftr angle 8)) as Hs. unfold is_s8 in Hs.
  destruct (pulse_width_exact_mod angle p1 p3 Ha Hp1 Hp3) as (Hpw & _ & _).
  rewrite exact_parts in *.
  set (s := Stand.sin8 (Z.shiftr angle 8)) in *.
  assert (Hlo : -2 * p3 <= s * p3 / 64)
    by (apply Z.div_le_lower_bound; nia).
  assert (Hhi : s * p3 / 64 <= 2 * p3)
    by (apply Z.div_le_upper_bound; nia).
  split; [lia|].
  intros ->. rewrite Hpw, Z.mul_0_r.
  change (0 / 64) with 0. rewrite Z.add_0_r.
  rewrite u16_id by (unfold is_u16; lia). lia.
Qed.

Lemma amplitude_bounds_the_swing_witness :
  1500 + 2 * (300 - 512) - 2 * 0
  <= Spec.pulse_width_exact 30000 300 0
  <= 1500 + 2 * (300 - 512) + 2 * 0
  /\ (0 = 0 ->
      Stand.pulse_width 30000 300 0 = 1500 + 2 * (300 - 512)
      /\ 476 <= Stand.pulse_width 30000 300 0 <= 2522).
Proof.
  apply (amplitude_bounds_the_swing 30000 300 0); unfold is_u16; lia.
Defined.

(** X20: when the pulse width wraps.  For samples in range there is a
    phase at which the formula goes below zero exactly when
    [p3 > p1 + 238]; at the trough of the sine (phase 0xC000) the value is
    then [476 + 2 * p1 - 2 * p3] and the 16-bit [pw] receives that plus
    65536, a pulse of more than 65 milliseconds asked for. *)
Theorem pulse_width_wraps_exactly_when (p1 p3 : Z) :
  0 <= p1 <= 1023 -> 0 <= p3 <= 255 ->
  (p1 + 238 < p3 <->
   exists angle, is_u16 angle /\ Spec.pulse_width_exact angle p1 p3 < 0)
  /\ Spec.pulse_width_exact 49152 p1 p3 = 476 + 2 * p1 - 2 * p3
  /\ (p1 + 238 < p3 ->
      Stand.pulse_width 49152 p1 p3 = 65536 + (476 + 2 * p1 - 2 * p3)
      /\ 65502 <= Stand.pulse_width 49152 p1 p3).
Proof.
  intros Hp1 Hp3.
  assert (Htrough : Spec.pulse_width_exact 49152 p1 p3
                    = 476 + 2 * p1 - 2 * p3).
  { rewrite exact_parts.
    change (Stand.sin8 (Z.shiftr 49152 8)) with (-128).
    replace (-128 * p3) with (-2 * p3 * 64) by lia.
    rewrite Z.div_mul by lia. lia. }
  split; [|split; [exact Htrough|]].
  - split.
    + intros Hwrap. exists 49152. split; [unfold is_u16; lia|]. lia.
    + intros (angle & Ha & Hneg).
      destruct (pulse_width_exact_mod angle p1 p3 Ha Hp1 Hp3)
        as (_ & Hlow & _). lia.
  - intros Hwrap.
    destruct (pulse_width_exact_mod 49152 p1 p3) as (Hpw & _ & _);
      [unfold is_u16; lia | lia | lia |].
    rewrite Hpw, Htrough.
    assert (Hu : u16 (476 + 2 * p1 - 2 * p3)
                 = 65536 + (476 + 2 * p1 - 2 * p3)).
    { unfold u16, to_unsigned. change (2 ^ 16) with 65536.
      symmetry. apply Z.mod_unique with (q := -1); lia. }
    rewrite Hu. lia.
Qed.

Lemma pulse_width_wraps_exactly_when_witness :
  Spec.pulse_width_exact 49152 10 250 = 476 + 2 * 10 - 2 * 250
  /\ Stand.pulse_width 49152 10 250 = 65536 + (476 + 2 * 10 - 2 * 250)
  /\ 65502 <= Stand.pulse_width 49152 10 250.
Proof.
  destruct (pulse_width_wraps_exactly_when 10 250) as (_ & Ht & Hw);
    [lia | lia |].
  split; [exact Ht|]. apply Hw. lia.
Defined.

End Swing.

(** ** The phase as a sum of increments *)

Section PhaseSum.

(** X21: the phase after [n] turns is the phase before plus the sum of the
    increments [p2 << 2] of those turns, modulo [2^16]: the speed history
    counts only through that sum, and every increment is a multiple of 4
    between 0 and 4092. *)
Theorem phase_is_the_sum_of_increments (world : nat -> Z -> Z) (n : nat)
    (m : Stand.machine) :
  is_u16 (Stand.angle m) ->
  Stand.angle (Stand.run world n m)
  = u16 (Stand.angle m + Phase.increments world n)
  /\ 0 <= Phase.increments world n <= 4092 * Z.of_nat n
  /\ Phase.increments world n mod 4 = 0.
Proof.
  intros Ha. induction n as [|n (IHa & IHr & IHm)].
  - cbn [Stand.run Phase.increments]. rewrite Z.add_0_r.
    split; [symmetry; now apply u16_id|]. split; [lia | reflexivity].
  - cbn [Stand.run Phase.increments].
    pose proof (speed_sample_range (world n)) as Hp.
    rewrite Z.shiftl_mul_pow2 by lia. change (2 ^ 2) with 4.
    split; [|split].
    + rewrite angle_after_loop, IHa.
      rewrite Z.shiftl_mul_pow2 by lia. change (2 ^ 2) with 4.
      unfold u16, to_unsigned. rewrite Z.add_mod_idemp_l by lia.
      f_equal. lia.
    + lia.
    + rewrite Z.add_mod, IHm, Z.mod_mul by lia. reflexivity.
Qed.

Lemma phase_is_the_sum_of_increments_witness :
  Stand.angle
    (Stand.run (fun i => fixed_pots 0 (Z.of_nat i * 500) 0) 3
       (Stand.mkMachine 65000 zero_regs []))
  = u16 (65000
         + Phase.increments (fun i => fixed_pots 0 (Z.of_nat i * 500) 0) 3).
Proof.
  apply (phase_is_the_sum_of_increments
           (fun i => fixed_pots 0 (Z.of_nat i * 500) 0) 3
           (Stand.mkMachine 65000 zero_regs [])).
  unfold is_u16. simpl. lia.
Defined.

End PhaseSum.

(** ** The table printed by experiments/sin11.c *)

Section Table.

Local Open Scope bool_scope.

Lemma table_lines_all :
  forallb (fun x =>
             (Z.of_nat (String.length (Plot.line x))
              =? 11 + Plot.bar_length (u8 (Sin11.sin8 (u8 x))))
             && (1 <=? Plot.bar_length (u8 (Sin11.sin8 (u8 x))))
             && (Plot.bar_length (u8 (Sin11.sin8 (u8 x))) <=? 64)
             && (if (1 <=? x) && (x <=? 128)
                 then Plot.bar_length (u8 (Sin11.sin8 (u8 x))) <=? 32
                 else 33 <=? Plot.bar_length (u8 (Sin11.sin8 (u8 x)))))
          all_u8 = true.
Proof. vm_compute. reflexivity. Qed.

(** X22: the table has 256 lines and fits a terminal: the line of phase
    [x] is 11 characters plus a bar of [1 + z / 4] marks, [z] being
    [sin8 x] read as an unsigned byte, so a bar has 1 to 64 marks and a
    line at most 75 characters with its newline.  Since [z] is the
    zero-centered sine read unsigned, the bars of the phases 1..128 have at
    most 32 marks and all the others, phase 0 included, at least 33. *)
Theorem table_fits_the_terminal (x : Z) :
  is_u8 x ->
  length Plot.main = 256%nat
  /\ nth (Z.to_nat x) Plot.main String.EmptyString = Plot.line x
  /\ Z.of_nat (String.length (Plot.line x))
     = 11 + Plot.bar_length (u8 (Sin11.sin8 (u8 x)))
  /\ 1 <= Plot.bar_length (u8 (Sin11.sin8 (u8 x))) <= 64
  /\ (1 <= x <= 128 -> Plot.bar_length (u8 (Sin11.sin8 (u8 x))) <= 32)
  /\ (x = 0 \/ 129 <= x -> 33 <= Plot.bar_length (u8 (Sin11.sin8 (u8 x)))).
Proof.
  intros Hx. pose proof (check_all_u8 _ table_lines_all x Hx) as H.
  cbv beta in H.
  apply andb_true_iff in H as [H Hhalf].
  apply andb_true_iff in H as [H Hmax].
  apply andb_true_iff in H as [Hlen Hmin].
  apply Z.eqb_eq in Hlen. apply Z.leb_le in Hmin, Hmax.
  split; [unfold Plot.main; rewrite length_map; reflexivity|]. split.
  - unfold Plot.main. unfold is_u8 in Hx.
    assert (Hnth : forall n lo k, (k < n)%nat ->
                     nth k (map Plot.line (zrange lo n)) String.EmptyString
                     = Plot.line (lo + Z.of_nat k)).
    { induction n as [|n IH]; intros lo k Hk; [lia|].
      cbn [zrange map]. destruct k as [|k].
      - cbn [nth]. f_equal. lia.
      - cbn [nth]. rewrite IH by lia. f_equal. lia. }
    rewrite Hnth by lia. f_equal. lia.
  - split; [exact Hlen|]. split; [lia|]. split.
    + intros Hin.
      assert (E : (1 <=? x) && (x <=? 128) = true).
      { apply andb_true_iff. split; apply Z.leb_le; lia. }
      rewrite E in Hhalf. apply Z.leb_le in Hhalf. exact Hhalf.
    + intros Hout.
      assert (E : (1 <=? x) && (x <=? 128) = false).
      { apply andb_false_iff. destruct Hout as [Hzero | Hout];
          [left | right]; apply Z.leb_gt; lia. }
      rewrite E in Hhalf. apply Z.leb_le in Hhalf. exact Hhalf.
Qed.

Lemma table_fits_the_terminal_witness :
  Z.of_nat (String.length (Plot.line 64))
  = 11 + Plot.bar_length (u8 (Sin11.sin8 (u8 64)))
  /\ 1 <= Plot.bar_length (u8 (Sin11.sin8 (u8 64))) <= 64.
Proof.
  destruct (table_fits_the_terminal 64) as (_ & _ & Hlen & Hbar & _);
    [unfold is_u8; lia|].
  split; assumption.
Defined.

End Table.

(** ** The pin during a pulse *)

Section PinDuringPulse.

Local Open Scope bool_scope.

Variable F_CPU : Z.

Lemma traced_spin count s :
  is_u16 count ->
  Scope.spin count s
  = Some (tt,
          Scope.mkTraced (Scope.spins s + Timed.spin_turns count)
            (Scope.mach s)
            ((Stand.PORTB (Stand.io (Scope.mach s)), Timed.spin_turns count)
               :: Scope.wave s)).
Proof.
  intros Hc. unfold Scope.spin, Timed.spin_turns.
  now rewrite busy_wait_ends by exact Hc.
Qed.

(** X15: [send_pulse] holds one pin high for one busy loop.  For a pin
    0..7 and a 16-bit width, the call runs exactly one busy loop, of the
    turns of a counter started at [us2loops(width)]; while that loop runs,
    bit [port] of [PORTB] is set and the other bits are as they were;
    afterwards bit [port] is clear and the other bits are as they were; no
    other register and not the phase has changed, and one pulse
    [(port, width)] is on record.  Without the oscilloscope the same call
    is the [send_pulse] of the clocked machine. *)
Theorem send_pulse_holds_the_pin_high (port width : Z) (s : Scope.traced) :
  0 <= port <= 7 -> is_u16 width ->
  exists n high m,
    Scope.send_pulse F_CPU port width s
    = Some (tt,
            Scope.mkTraced (Scope.spins s + n) m
              ((high, n) :: Scope.wave s))
    /\ n = Timed.spin_turns (Timed.us2loops F_CPU width)
    /\ Z.testbit high port = true
    /\ (forall b, 0 <= b -> b <> port ->
          Z.testbit high b
          = Z.testbit (u8 (Stand.PORTB (Stand.io (Scope.mach s)))) b)
    /\ (forall b, 0 <= b ->
          Z.testbit (Stand.PORTB (Stand.io m)) b
          = Z.testbit (u8 (Stand.PORTB (Stand.io (Scope.mach s)))) b
            && negb (b =? port))
    /\ Stand.DDRB (Stand.io m) = Stand.DDRB (Stand.io (Scope.mach s))
    /\ Stand.ADMUX (Stand.io m) = Stand.ADMUX (Stand.io (Scope.mach s))
    /\ Stand.ADCSRA (Stand.io m) = Stand.ADCSRA (Stand.io (Scope.mach s))
    /\ Stand.ADCW (Stand.io m) = Stand.ADCW (Stand.io (Scope.mach s))
    /\ Stand.angle m = Stand.angle (Scope.mach s)
    /\ Stand.pulses m = (port, width) :: Stand.pulses (Scope.mach s)
    /\ Timed.send_pulse F_CPU port width
         (Timed.mkClocked (Scope.spins s) (Scope.mach s))
       = Some (tt, Timed.mkClocked (Scope.spins s + n) m).
Proof.
  intros Hport Hwidth.
  destruct s as [sp [a [ddrb p admux adcsra adcw] ps] w].
  eexists. eexists. eexists. split.
  - unfold Scope.send_pulse. cbv zeta.
    unfold Scope.bind at 1. unfold Scope.lift at 1.
    cbn [Scope.mach Scope.spins Scope.wave Stand.put_io Stand.io
         Stand.angle Stand.pulses].
    unfold Scope.bind at 1. unfold Scope.lift at 1.
    cbn [Scope.mach Scope.spins Scope.wave Stand.log_pulse Stand.io
         Stand.angle Stand.pulses].
    unfold Scope.bind at 1.
    rewrite traced_spin by apply us2loops_range.
    unfold Scope.lift.
    cbn [Scope.mach Scope.spins Scope.wave Stand.put_io Stand.io
         Stand.angle Stand.pulses Stand.set_PORTB Stand.PORTB Stand.DDRB
         Stand.ADMUX Stand.ADCSRA Stand.ADCW].
    reflexivity.
  - split; [reflexivity|].
    unfold Stand.set_PORTB.
    cbn [Scope.mach Scope.spins Stand.io Stand.angle Stand.pulses
         Stand.PORTB Stand.DDRB Stand.ADMUX Stand.ADCSRA Stand.ADCW].
    unfold Stand._BV. rewrite Z.shiftl_1_l.
    assert (Hbyte : Z.testbit 255 port = true).
    { change 255 with (Z.ones 8). apply Z.ones_spec_low. lia. }
    split; [|split; [|split]].
    + rewrite u8_land, Z.land_spec, Z.lor_spec, Z.pow2_bits_true by lia.
      now rewrite orb_true_r, Hbyte.
    + intros b Hb Hne.
      rewrite !u8_land, !Z.land_spec, Z.lor_spec.
      rewrite Z.pow2_bits_false by lia. now rewrite orb_false_r.
    + intros b Hb.
      rewrite !u8_land, !Z.land_spec, Z.lor_spec, Z.lnot_spec by lia.
      rewrite Z.pow2_bits_eqb by lia. rewrite (Z.eqb_sym b port).
      destruct (Z.testbit p b), (port =? b), (Z.testbit 255 b); reflexivity.
    + repeat split.
      unfold Timed.send_pulse. cbv zeta.
      rewrite lift_bind. cbv beta. cbn [Timed.mach Timed.spins].
      rewrite lift_bind. cbv beta. cbn [Timed.mach Timed.spins].
      rewrite spin_bind by apply us2loops_range.
      unfold Timed.lift.
      cbn [Timed.mach Timed.spins fst snd Stand.put_io Stand.log_pulse
           Stand.angle Stand.io Stand.pulses Stand.set_PORTB Stand.PORTB
           Stand.DDRB Stand.ADMUX Stand.ADCSRA Stand.ADCW].
      unfold Stand._BV. rewrite Z.shiftl_1_l. reflexivity.
Qed.

End PinDuringPulse.

Lemma send_pulse_holds_the_pin_high_witness :
  exists n high m,
    Scope.send_pulse 8000000 0 1500
      (Scope.mkTraced 7
         (Stand.mkMachine 5 (Stand.mkRegs 1 254 0 131 0) []) [])
    = Some (tt, Scope.mkTraced (7 + n) m ((high, n) :: []))
    /\ n = Timed.spin_turns (Timed.us2loops 8000000 1500)
    /\ Z.testbit high 0 = true
    /\ Stand.pulses m = (0, 1500) :: [].
Proof.
  destruct (send_pulse_holds_the_pin_high 8000000 0 1500
              (Scope.mkTraced 7
                 (Stand.mkMachine 5 (Stand.mkRegs 1 254 0 131 0) []) [])
              ltac:(lia) ltac:(unfold is_u16; lia))
    as (n & high & m & Hrun & Hn & Hhigh & _ & _ & _ & _ & _ & _ & _
        & Hpulses & _).
  exists n, high, m. repeat split; assumption.
Defined.

(** ** The pulse width at the corner of the inputs *)

Section Corner.

(** C2: the pulse width computed in [loop] is meant never to wrap the
    unsigned 16-bit [pw]; the code does not keep to that.  With the offset
    potentiometer at its minimum (sample 0), the amplitude at its maximum
    (sample 255) and the sine at its trough (phase 0xC000) the formula
    gives -34: [pw] receives 65502, [loop] asks [send_pulse] for a pulse
    of 65502 microseconds, and at 8 MHz the turn spins 68067 times, more
    than 42 milliseconds where the source promises 18 to 22. *)
Theorem pulse_width_wraps_at_the_corner :
  Stand.offset_sample (fixed_pots 0 0 1023) = 0
  /\ Stand.amplitude_sample (fixed_pots 0 0 1023) = 255
  /\ Spec.pulse_width_exact 49152 0 255 = -34
  /\ Stand.pulse_width 49152 0 255 = 65502
  /\ Stand.pulses
       (snd (Stand.loop (fixed_pots 0 0 1023)
               (Stand.mkMachine 49152 zero_regs [])))
     = [(Stand.PB0, 65502)]
  /\ Timed.loop 8000000 (fixed_pots 0 0 1023)
       (Timed.mkClocked 0 (Stand.mkMachine 49152 zero_regs []))
     = Some (tt,
             Timed.mkClocked 68067
               (snd (Stand.loop (fixed_pots 0 0 1023)
                       (Stand.mkMachine 49152 zero_regs []))))
  /\ 42000 * (8000000 / 100000) < 50 * 68067.
Proof.
  split; [vm_compute; reflexivity|].
  split; [vm_compute; reflexivity|].
  split; [vm_compute; reflexivity|].
  split; [vm_compute; reflexivity|].
  split; [vm_compute; reflexivity|].
  split; [vm_compute; reflexivity|].
  vm_compute; reflexivity.
Qed.

End Corner.
